(** * chatapp: the real-time chat component of [src/chat.js]

    A shallow embedding of the React component [App]: its six state
    variables, the two effects (Firebase bootstrap and the Firestore feed
    subscription), the submit handler and the render function, together with
    the part of the Firebase/React contract the component relies on
    (listener registration and removal, promise settlement, effect
    re-execution on dependency change). *)

From Stdlib Require Import Ascii String.
From stdpp Require Import base numbers option list strings gmap sets.

Local Open Scope N_scope.

(** ** JavaScript strings

    A JavaScript string is a sequence of UTF-16 code units; [trim] and
    [substring] act on code units, so that is what is modelled. *)

Abbreviation jsstring := (list N).

(** An ASCII literal of the source as a JavaScript string. *)
Definition lit (s : string) : jsstring :=
  N_of_ascii <$> list_ascii_of_string s.

Global Arguments lit : simpl never.

(** ECMAScript [WhiteSpace] and [LineTerminator] code points, the ones
    [String.prototype.trim] strips. *)
Definition is_whitespace (c : N) : bool :=
  (c =? 0x09) || (c =? 0x0A) || (c =? 0x0B) || (c =? 0x0C) || (c =? 0x0D)
  || (c =? 0x20) || (c =? 0xA0) || (c =? 0x1680)
  || ((0x2000 <=? c) && (c <=? 0x200A))
  || (c =? 0x2028) || (c =? 0x2029) || (c =? 0x202F) || (c =? 0x205F)
  || (c =? 0x3000) || (c =? 0xFEFF).

Fixpoint trimStart (s : jsstring) : jsstring :=
  match s with
  | c :: s' => if is_whitespace c then trimStart s' else s
  | [] => []
  end.

Definition trimEnd (s : jsstring) : jsstring := reverse (trimStart (reverse s)).

(** [s.trim()] *)
Definition trim (s : jsstring) : jsstring := trimEnd (trimStart s).

(** [s.substring(0, n)] *)
Definition substring0 (n : nat) (s : jsstring) : jsstring := take n s.

(** ** Values held in documents and in JavaScript objects *)

#[warnings="-register-all"] Inductive value :=
| VNull
| VBool (b : bool)
| VNum (n : Z)                    (* integral numbers; 0 is the falsy one *)
| VStr (s : jsstring)
| VTimestamp (millis : Z)         (* a Firestore [Timestamp]; has [toDate()] *)
| VServerTimestamp                (* the sentinel returned by [serverTimestamp()] *)
| VArray (items : list value)     (* a JavaScript array *)
| VObject (ref : nat).            (* any other object: map, reference, bytes... *)

Fixpoint value_eq_dec (x y : value) : {x = y} + {x ≠ y}.
Proof.
  decide equality;
    first [ apply Z.eq_dec | apply Nat.eq_dec | apply Bool.bool_dec
          | apply (List.list_eq_dec N.eq_dec)
          | apply (List.list_eq_dec value_eq_dec) ].
Defined.

Global Instance value_eq_decision : EqDecision value := value_eq_dec.

(** A property read [o.k] yields [None] for [undefined]. *)
Abbreviation jsobject := (gmap string value).

(** JavaScript truthiness of the result of a property read. *)
Definition truthy (v : option value) : bool :=
  match v with
  | None | Some VNull | Some (VBool false) => false
  | Some (VNum n) => negb (n =? 0)%Z
  | Some (VStr s) => negb (bool_decide (s = []))
  | Some (VBool true) | Some (VTimestamp _) | Some VServerTimestamp
  | Some (VArray _) | Some (VObject _) => true
  end.

(** What React accepts as a child: strings and numbers are shown, null and
    booleans show nothing, an array is shown item by item; any other object
    is refused. *)
Fixpoint validChild (v : value) : bool :=
  match v with
  | VNull | VBool _ | VNum _ | VStr _ => true
  | VArray items => forallb validChild items
  | VTimestamp _ | VServerTimestamp | VObject _ => false
  end.

(** ** Errors *)

Inductive exn :=
| TypeError (what : string)
| FirebaseError (code : string)
| ReactError (what : string).

Global Instance exn_eq_dec : EqDecision exn.
Proof. solve_decision. Defined.

(** ** Firebase handles and requests *)

Record User := { user_ref : nat; uid : jsstring }.
Record Firestore := { firestore_ref : nat }.
Record Auth := { auth_ref : nat }.
Record FirebaseApp := { app_ref : nat }.

Global Instance User_eq_dec : EqDecision User.
Proof. solve_decision. Defined.
Global Instance Firestore_eq_dec : EqDecision Firestore.
Proof. solve_decision. Defined.
Global Instance Auth_eq_dec : EqDecision Auth.
Proof. solve_decision. Defined.

(** [collection(db, path)] *)
Record CollectionReference := collection { coll_db : Firestore; coll_path : jsstring }.

Inductive direction := asc | desc.

(** [query(ref, orderBy(field, dir))] *)
Record Query := query_orderBy
  { q_ref : CollectionReference; q_field : string; q_dir : direction }.

Global Instance CollectionReference_eq_dec : EqDecision CollectionReference.
Proof. solve_decision. Defined.
Global Instance direction_eq_dec : EqDecision direction.
Proof. solve_decision. Defined.
Global Instance Query_eq_dec : EqDecision Query.
Proof. solve_decision. Defined.

(** A document of a query snapshot: [doc.id] and [doc.data()]. *)
Record QueryDocumentSnapshot := { doc_id : jsstring; doc_data : jsobject }.

Inductive SignInCall :=
| signInWithCustomToken (a : Auth) (token : jsstring)
| signInAnonymously (a : Auth).

Record AddDocCall := { add_ref : CollectionReference; add_fields : jsobject }.

(** ** The environment of the module

    The three globals read at the top of [chat.js], and the synchronous
    Firebase constructors, which may throw. [toLocaleTimeString] stands for
    [new Date(d).toLocaleTimeString()], which depends on the locale. *)

Record Env := {
  __app_id : option jsstring;
  __initial_auth_token : option jsstring;
  firebaseConfig : jsobject;
  initializeApp : jsobject → exn + FirebaseApp;
  getFirestore : FirebaseApp → exn + Firestore;
  getAuth : FirebaseApp → exn + Auth;
  toLocaleTimeString : Z → jsstring
}.

Definition appId (env : Env) : jsstring :=
  match __app_id env with Some a => a | None => lit "default-app-id" end.

Definition initialAuthToken (env : Env) : option jsstring :=
  __initial_auth_token env.

(** The template literal [`artifacts/${appId}/public/data/messages`]. *)
Definition messagesPath (env : Env) : jsstring :=
  lit "artifacts/" ++ appId env ++ lit "/public/data/messages".

Global Arguments messagesPath : simpl never.

(** ** State of the component: the six [useState] cells *)

Record AppState := {
  messages : list jsobject;
  newMessage : jsstring;
  user : option User;
  db : option Firestore;
  auth : option Auth;
  isAuthReady : bool
}.

Global Instance AppState_eq_dec : EqDecision AppState.
Proof. solve_decision. Defined.

Definition initialState : AppState :=
  {| messages := []; newMessage := []; user := None; db := None;
     auth := None; isAuthReady := false |}.

(** ** The outside world: Firebase and the console *)

Record World := {
  next_handle : nat;                     (* handles are never reused *)
  authObservers : gset nat;              (* live [onAuthStateChanged] listeners *)
  snapshotListeners : gmap nat Query;    (* live [onSnapshot] listeners *)
  signIns : list SignInCall;             (* sign-in requests, oldest first *)
  addDocs : list AddDocCall;             (* append requests, oldest first *)
  console : list (jsstring * exn)        (* [console.error] lines, oldest first *)
}.

Definition initialWorld : World :=
  {| next_handle := 0%nat; authObservers := ∅; snapshotListeners := ∅;
     signIns := []; addDocs := []; console := [] |}.

(** ** React's bookkeeping for the component instance *)

Inductive phase := Initial | Mounted | Unmounted.

Global Instance phase_eq_dec : EqDecision phase.
Proof. solve_decision. Defined.

(** What runs when an awaited promise settles. *)
Inductive continuation := KSignIn | KAddDoc.

(** The dependency array [[db, user, isAuthReady]], compared with
    [Object.is]: objects by reference. *)
Definition Deps : Type := option Firestore * option nat * bool.

Definition feedDepsOf (st : AppState) : Deps :=
  (db st, user_ref <$> user st, isAuthReady st).

Record Runtime := {
  lifecycle : phase;
  crashed : option exn;                  (* an exception that escaped a render *)
  uncaught : list exn;                   (* exceptions that escaped a callback *)
  authCleanup : option nat;              (* cleanup returned by the first effect *)
  feedDeps : option Deps;                (* dependencies of the last feed effect run *)
  feedCleanup : option nat;              (* cleanup returned by the feed effect *)
  awaiting : gmap nat continuation       (* suspended [async] functions *)
}.

Definition initialRuntime : Runtime :=
  {| lifecycle := Initial; crashed := None; uncaught := []; authCleanup := None;
     feedDeps := None; feedCleanup := None; awaiting := ∅ |}.

Record Sys := { st : AppState; rt : Runtime; world : World }.

Definition initialSys : Sys :=
  {| st := initialState; rt := initialRuntime; world := initialWorld |}.

(** ** A state and exception monad for callbacks and effects *)

Definition M (A : Type) : Type := Sys → (exn + A) * Sys.

Global Instance M_ret : MRet M := λ A a s, (inr a, s).

Global Instance M_bind : MBind M := λ A B k m s,
  match m s with
  | (inl e, s') => (inl e, s')
  | (inr a, s') => k a s'
  end.

(** [try { m } catch (error) { h error }] *)
Definition try_catch {A} (m : M A) (h : exn → M A) : M A := λ s,
  match m s with
  | (inl e, s') => h e s'
  | (inr a, s') => (inr a, s')
  end.

(** The outcome of a call that returns or throws. *)
Definition call {A} (r : exn + A) : M A := λ s, (r, s).

Definition get : M Sys := λ s, (inr s, s).

Definition modify_st (f : AppState → AppState) : M unit := λ s,
  (inr (), {| st := f (st s); rt := rt s; world := world s |}).

Definition modify_rt (f : Runtime → Runtime) : M unit := λ s,
  (inr (), {| st := st s; rt := f (rt s); world := world s |}).

Definition modify_world (f : World → World) : M unit := λ s,
  (inr (), {| st := st s; rt := rt s; world := f (world s) |}).

(** *** State setters

    A setter called on a component that is not mounted is ignored by
    React. *)

Definition setState (f : AppState → AppState) : M unit :=
  s ← get;
  if decide (lifecycle (rt s) = Mounted) then modify_st f else mret ().

Definition setMessages (v : list jsobject) : M unit :=
  setState (λ a, {| messages := v; newMessage := newMessage a; user := user a;
                    db := db a; auth := auth a; isAuthReady := isAuthReady a |}).

Definition setNewMessage (v : jsstring) : M unit :=
  setState (λ a, {| messages := messages a; newMessage := v; user := user a;
                    db := db a; auth := auth a; isAuthReady := isAuthReady a |}).

Definition setUser (v : option User) : M unit :=
  setState (λ a, {| messages := messages a; newMessage := newMessage a; user := v;
                    db := db a; auth := auth a; isAuthReady := isAuthReady a |}).

Definition setDb (v : option Firestore) : M unit :=
  setState (λ a, {| messages := messages a; newMessage := newMessage a; user := user a;
                    db := v; auth := auth a; isAuthReady := isAuthReady a |}).

Definition setAuth (v : option Auth) : M unit :=
  setState (λ a, {| messages := messages a; newMessage := newMessage a; user := user a;
                    db := db a; auth := v; isAuthReady := isAuthReady a |}).

Definition setIsAuthReady (v : bool) : M unit :=
  setState (λ a, {| messages := messages a; newMessage := newMessage a; user := user a;
                    db := db a; auth := auth a; isAuthReady := v |}).

(** *** The collaborators' operations *)

Definition fresh_handle : M nat :=
  s ← get;
  modify_world (λ w, {| next_handle := S (next_handle w);
                        authObservers := authObservers w;
                        snapshotListeners := snapshotListeners w;
                        signIns := signIns w; addDocs := addDocs w;
                        console := console w |});;
  mret (next_handle (world s)).

Definition logged (msg : string) (error : exn) (w : World) : World :=
  {| next_handle := next_handle w; authObservers := authObservers w;
     snapshotListeners := snapshotListeners w;
     signIns := signIns w; addDocs := addDocs w;
     console := console w ++ [(lit msg, error)] |}.

(** [console.error(msg, error)] *)
Definition console_error (msg : string) (error : exn) : M unit :=
  modify_world (logged msg error).

(** [onAuthStateChanged(auth, callback)]: registers the observer and returns
    the handle its unsubscribe function releases. *)
Definition onAuthStateChanged (a : Auth) : M nat :=
  h ← fresh_handle;
  modify_world (λ w, {| next_handle := next_handle w;
                        authObservers := {[h]} ∪ authObservers w;
                        snapshotListeners := snapshotListeners w;
                        signIns := signIns w; addDocs := addDocs w;
                        console := console w |});;
  mret h.

Definition unsubscribeAuth (h : nat) : M unit :=
  modify_world (λ w, {| next_handle := next_handle w;
                        authObservers := authObservers w ∖ {[h]};
                        snapshotListeners := snapshotListeners w;
                        signIns := signIns w; addDocs := addDocs w;
                        console := console w |}).

(** [onSnapshot(q, next, error)] *)
Definition onSnapshot (q : Query) : M nat :=
  h ← fresh_handle;
  modify_world (λ w, {| next_handle := next_handle w;
                        authObservers := authObservers w;
                        snapshotListeners := <[h := q]> (snapshotListeners w);
                        signIns := signIns w; addDocs := addDocs w;
                        console := console w |});;
  mret h.

Definition unsubscribe (h : nat) : M unit :=
  modify_world (λ w, {| next_handle := next_handle w;
                        authObservers := authObservers w;
                        snapshotListeners := delete h (snapshotListeners w);
                        signIns := signIns w; addDocs := addDocs w;
                        console := console w |}).

(** A sign-in request; the result is the handle of its promise. *)
Definition request_signIn (c : SignInCall) : M nat :=
  p ← fresh_handle;
  modify_world (λ w, {| next_handle := next_handle w;
                        authObservers := authObservers w;
                        snapshotListeners := snapshotListeners w;
                        signIns := signIns w ++ [c]; addDocs := addDocs w;
                        console := console w |});;
  mret p.

(** [addDoc(ref, fields)]; the result is the handle of its promise. *)
Definition addDoc (r : CollectionReference) (fields : jsobject) : M nat :=
  p ← fresh_handle;
  modify_world (λ w, {| next_handle := next_handle w;
                        authObservers := authObservers w;
                        snapshotListeners := snapshotListeners w;
                        signIns := signIns w;
                        addDocs := addDocs w ++ [{| add_ref := r; add_fields := fields |}];
                        console := console w |});;
  mret p.

(** [await p]: the rest of the [async] function is resumed when [p]
    settles. *)
Definition await (p : nat) (k : continuation) : M unit :=
  modify_rt (λ r, {| lifecycle := lifecycle r; crashed := crashed r;
                     uncaught := uncaught r; authCleanup := authCleanup r;
                     feedDeps := feedDeps r; feedCleanup := feedCleanup r;
                     awaiting := <[p := k]> (awaiting r) |}).

(** ** The component [App] *)

Section App.

Context (env : Env).

(** *** First effect: Firebase bootstrap and the auth observer *)

(** The [async] function [signIn], up to its [await]. An empty token is
    falsy, like an absent one. *)
Definition signIn (firebaseAuth : Auth) : M unit :=
  try_catch
    (match initialAuthToken env with
     | Some (c :: tok) =>
         p ← request_signIn (signInWithCustomToken firebaseAuth (c :: tok));
         await p KSignIn
     | _ =>
         p ← request_signIn (signInAnonymously firebaseAuth);
         await p KSignIn
     end)
    (λ error, console_error "Firebase authentication error:" error).

(** [signIn] after its [await], once the promise has settled. *)
Definition signIn_resume (outcome : exn + unit) : M unit :=
  try_catch (call outcome)
    (λ error, console_error "Firebase authentication error:" error).

(** The observer passed to [onAuthStateChanged]. *)
Definition authStateCallback (currentUser : option User) : M unit :=
  setUser currentUser;;
  setIsAuthReady true.

(** The body of the first [useEffect]; the result is its cleanup, the
    handle [unsubscribeAuth] releases, or [None] when the body returned
    nothing. *)
Definition initEffect : M (option nat) :=
  try_catch
    (app ← call (initializeApp env (firebaseConfig env));
     firestoreDb ← call (getFirestore env app);
     firebaseAuth ← call (getAuth env app);
     setDb (Some firestoreDb);;
     setAuth (Some firebaseAuth);;
     unsubscribeAuth ← onAuthStateChanged firebaseAuth;
     signIn firebaseAuth;;
     mret (Some unsubscribeAuth))
    (λ error,
       console_error "Failed to initialize Firebase:" error;;
       mret None).

(** *** Second effect: the Firestore feed *)

(** [{ id: doc.id, ...doc.data() }]: the spread comes last, so a field of
    the document named [id] takes precedence over [doc.id]. *)
Definition fetchedMessage (doc : QueryDocumentSnapshot) : jsobject :=
  doc_data doc ∪ {[ "id"%string := VStr (doc_id doc) ]}.

(** The [next] callback passed to [onSnapshot]. *)
Definition snapshotCallback (docs : list QueryDocumentSnapshot) : M unit :=
  let fetchedMessages := fetchedMessage <$> docs in
  setMessages fetchedMessages.

(** The [error] callback passed to [onSnapshot]. *)
Definition snapshotErrorCallback (error : exn) : M unit :=
  console_error "Error fetching messages:" error.

(** The body of the second [useEffect], run with the values of the render
    [c] it closes over; the result is its cleanup. *)
Definition feedEffect (c : AppState) : M (option nat) :=
  match db c, user c, isAuthReady c with
  | Some d, Some _, true =>
      let messagesCollectionRef := collection d (messagesPath env) in
      let q := query_orderBy messagesCollectionRef "timestamp" asc in
      h ← onSnapshot q;
      mret (Some h)
  | _, _, _ => mret None
  end.

(** *** The submit handler

    [e.preventDefault()] only stops the browser's own form submission and
    touches nothing modelled here. *)

Definition messageFields (c : AppState) (u : User) : jsobject :=
  <[ "text"%string := VStr (newMessage c) ]>
    (<[ "userId"%string := VStr (uid u) ]>
       (<[ "timestamp"%string := VServerTimestamp ]> ∅)).

(** [handleSendMessage], up to its [await], with the values of the render
    [c] it closes over. *)
Definition handleSendMessage (c : AppState) : M unit :=
  match bool_decide (trim (newMessage c) = []), db c, user c with
  | false, Some d, Some u =>
      try_catch
        (p ← addDoc (collection d (messagesPath env)) (messageFields c u);
         await p KAddDoc)
        (λ error, console_error "Error sending message:" error)
  | _, _, _ => mret ()               (* the early [return] *)
  end.

(** [handleSendMessage] after its [await]. *)
Definition handleSendMessage_resume (outcome : exn + unit) : M unit :=
  try_catch
    (call outcome;;
     setNewMessage [])
    (λ error, console_error "Error sending message:" error).

(** *** Render *)

Record Bubble := {
  key : option value;          (* [key={msg.id}] *)
  rowClass : jsstring;         (* [className] of the row *)
  bubbleClass : jsstring;      (* [className] of the bubble *)
  body : option value;         (* [{msg.text}] *)
  label : jsstring;            (* first child of the caption *)
  time : option value          (* second child of the caption *)
}.

Inductive View :=
| LoadingView (caption : jsstring)
| ChatView (userIdLine : jsstring) (list_area : jsstring + list Bubble)
    (inputValue : jsstring).

(** [msg.userId === user?.uid]; the right-hand side is [undefined] or a
    string. *)
Definition isOwn (msg : jsobject) (u : option User) : bool :=
  match msg !! "userId"%string, u with
  | None, None => true
  | Some (VStr s), Some u => bool_decide (s = uid u)
  | _, _ => false
  end.

(** [msg.userId === user?.uid ? 'You' : `User: ${msg.userId.substring(0, 8)}...`] *)
Definition renderLabel (msg : jsobject) (u : option User) : exn + jsstring :=
  if isOwn msg u then inr (lit "You")
  else
    match msg !! "userId"%string with
    | Some (VStr s) => inr (lit "User: " ++ substring0 8 s ++ lit "...")
    | None => inl (TypeError "Cannot read properties of undefined (reading 'substring')")
    | Some VNull => inl (TypeError "Cannot read properties of null (reading 'substring')")
    | Some _ => inl (TypeError "msg.userId.substring is not a function")
    end.

(** [msg.timestamp && ` - ${new Date(msg.timestamp.toDate()).toLocaleTimeString()}`];
    a falsy timestamp is the value of the expression. *)
Definition renderTime (msg : jsobject) : exn + option value :=
  let ts := msg !! "timestamp"%string in
  if truthy ts then
    match ts with
    | Some (VTimestamp t) => inr (Some (VStr (lit " - " ++ toLocaleTimeString env t)))
    | _ => inl (TypeError "msg.timestamp.toDate is not a function")
    end
  else inr ts.

Definition renderMessage (u : option User) (msg : jsobject) : exn + Bubble :=
  let own := isOwn msg u in
  match renderLabel msg u with
  | inl e => inl e
  | inr l =>
      match renderTime msg with
      | inl e => inl e
      | inr t =>
          inr {| key := msg !! "id"%string;
                 rowClass := lit "flex " ++
                   (if own then lit "justify-end" else lit "justify-start");
                 bubbleClass := lit "max-w-[70%] p-3 rounded-xl shadow-sm " ++
                   (if own then lit "bg-blue-500 text-white rounded-br-none"
                    else lit "bg-gray-300 text-gray-800 rounded-bl-none");
                 body := msg !! "text"%string;
                 label := l;
                 time := t |}
      end
  end.

(** [messages.map(...)]: the first message whose callback throws aborts
    the render. Whether [{msg.text}] can be shown is React's business, once
    the whole list has been built: see [checkChildren]. *)
Fixpoint renderMessages (u : option User) (msgs : list jsobject) : exn + list Bubble :=
  match msgs with
  | [] => inr []
  | msg :: rest =>
      match renderMessage u msg with
      | inl e => inl e
      | inr b =>
          match renderMessages u rest with
          | inl e => inl e
          | inr bs => inr (b :: bs)
          end
      end
  end.

(** [user?.uid || 'N/A'] *)
Definition userIdText (u : option User) : jsstring :=
  match u with
  | Some {| uid := c :: s |} => c :: s
  | _ => lit "N/A"
  end.

(** Once [App] has returned, React mounts the elements: [{msg.text}] must
    be a valid child ([undefined] is one), or the render throws. The other
    children are strings or falsy values. *)
Fixpoint checkChildren (bs : list Bubble) : exn + list Bubble :=
  match bs with
  | [] => inr []
  | b :: rest =>
      if from_option validChild true (body b) then
        match checkChildren rest with
        | inl e => inl e
        | inr rest' => inr (b :: rest')
        end
      else inl (ReactError "Objects are not valid as a React child")
  end.

(** The render of [App] for the state [a]: what is on screen, or the
    exception thrown while the function runs or while React mounts what it
    returned. *)
Definition App (a : AppState) : exn + View :=
  if negb (isAuthReady a) then inr (LoadingView (lit "Loading chat..."))
  else
    match messages a with
    | [] =>
        inr (ChatView (userIdText (user a))
               (inl (lit "No messages yet. Start chatting!")) (newMessage a))
    | _ :: _ =>
        match renderMessages (user a) (messages a) with
        | inl e => inl e
        | inr bs =>
            match checkChildren bs with
            | inl e => inl e
            | inr bs' =>
                inr (ChatView (userIdText (user a)) (inr bs') (newMessage a))
            end
        end
    end.

End App.

(** ** React's treatment of the component, and the events it reacts to *)

Section Run.

Context (env : Env).

Definition set_lifecycle (p : phase) (r : Runtime) : Runtime :=
  {| lifecycle := p; crashed := crashed r; uncaught := uncaught r;
     authCleanup := authCleanup r; feedDeps := feedDeps r;
     feedCleanup := feedCleanup r; awaiting := awaiting r |}.

Definition set_crashed (e : exn) (r : Runtime) : Runtime :=
  {| lifecycle := lifecycle r; crashed := Some e; uncaught := uncaught r;
     authCleanup := authCleanup r; feedDeps := feedDeps r;
     feedCleanup := feedCleanup r; awaiting := awaiting r |}.

Definition push_uncaught (e : exn) (r : Runtime) : Runtime :=
  {| lifecycle := lifecycle r; crashed := crashed r; uncaught := uncaught r ++ [e];
     authCleanup := authCleanup r; feedDeps := feedDeps r;
     feedCleanup := feedCleanup r; awaiting := awaiting r |}.

Definition set_authCleanup (c : option nat) (r : Runtime) : Runtime :=
  {| lifecycle := lifecycle r; crashed := crashed r; uncaught := uncaught r;
     authCleanup := c; feedDeps := feedDeps r;
     feedCleanup := feedCleanup r; awaiting := awaiting r |}.

Definition set_feed (d : Deps) (c : option nat) (r : Runtime) : Runtime :=
  {| lifecycle := lifecycle r; crashed := crashed r; uncaught := uncaught r;
     authCleanup := authCleanup r; feedDeps := Some d;
     feedCleanup := c; awaiting := awaiting r |}.

Definition resumed (p : nat) (r : Runtime) : Runtime :=
  {| lifecycle := lifecycle r; crashed := crashed r; uncaught := uncaught r;
     authCleanup := authCleanup r; feedDeps := feedDeps r;
     feedCleanup := feedCleanup r; awaiting := delete p (awaiting r) |}.

(** Calling the cleanup function an effect returned, if it returned one. *)
Definition runAuthCleanup (c : option nat) : M unit :=
  match c with Some h => unsubscribeAuth h | None => mret () end.

Definition runFeedCleanup (c : option nat) : M unit :=
  match c with Some h => unsubscribe h | None => mret () end.

(** Mounting: after the first render (of [initialState], the loading
    screen) both effects run, each with the values of that render. *)
Definition mount : M unit :=
  s ← get;
  modify_rt (set_lifecycle Mounted);;
  c1 ← initEffect env;
  modify_rt (set_authCleanup c1);;
  c2 ← feedEffect env (st s);
  modify_rt (set_feed (feedDepsOf (st s)) c2).

(** After a re-render: an effect whose dependencies changed is cleaned up
    and run again. Only the feed effect has dependencies that can change. *)
Definition commit : M unit :=
  s ← get;
  if decide (feedDeps (rt s) = Some (feedDepsOf (st s))) then mret ()
  else
    runFeedCleanup (feedCleanup (rt s));;
    c ← feedEffect env (st s);
    modify_rt (set_feed (feedDepsOf (st s)) c).

(** Unmounting runs the cleanups of both effects. *)
Definition unmount : M unit :=
  s ← get;
  runAuthCleanup (authCleanup (rt s));;
  runFeedCleanup (feedCleanup (rt s));;
  modify_rt (set_authCleanup None);;
  modify_rt (λ r, {| lifecycle := Unmounted; crashed := crashed r;
                     uncaught := uncaught r; authCleanup := authCleanup r;
                     feedDeps := feedDeps r; feedCleanup := None;
                     awaiting := awaiting r |}).

(** What can happen to the component. A listener is only called while it
    is registered, a continuation only when its promise settles, and the
    form only exists on the chat screen. *)
Inductive event :=
| EMount
| EUnmount
| EAuthStateChanged (h : nat) (currentUser : option User)
| ESettled (p : nat) (outcome : exn + unit)
| ESnapshot (h : nat) (docs : list QueryDocumentSnapshot)
| ESnapshotError (h : nat) (error : exn)
| EChange (value : jsstring)
| ESubmit.

Definition formShown (s : Sys) : bool :=
  bool_decide (lifecycle (rt s) = Mounted) && isAuthReady (st s).

Definition dispatch (e : event) : M unit :=
  s ← get;
  match e with
  | EMount =>
      if decide (lifecycle (rt s) = Initial) then mount else mret ()
  | EUnmount =>
      if decide (lifecycle (rt s) = Mounted) then unmount else mret ()
  | EAuthStateChanged h currentUser =>
      if decide (h ∈ authObservers (world s)) then authStateCallback currentUser
      else mret ()
  | ESettled p outcome =>
      match awaiting (rt s) !! p with
      | Some KSignIn => modify_rt (resumed p);; signIn_resume outcome
      | Some KAddDoc => modify_rt (resumed p);; handleSendMessage_resume outcome
      | None => mret ()
      end
  | ESnapshot h docs =>
      if decide (is_Some (snapshotListeners (world s) !! h)) then snapshotCallback docs
      else mret ()
  | ESnapshotError h error =>
      if decide (is_Some (snapshotListeners (world s) !! h)) then snapshotErrorCallback error
      else mret ()
  | EChange value =>
      if formShown s then setNewMessage value else mret ()
  | ESubmit =>
      if formShown s then handleSendMessage env (st s) else mret ()
  end.

(** An exception that escapes a render unmounts the component. *)
Definition crash (error : exn) : M unit :=
  unmount;;
  modify_rt (set_crashed error).

(** One event in a tick of its own: the callback runs; if it changed the
    state of a mounted component, React renders again and commits the
    effects. *)
Definition step (e : event) (s : Sys) : Sys :=
  match dispatch e s with
  | (inl error, s1) => (modify_rt (push_uncaught error) s1).2
  | (inr _, s1) =>
      if decide (lifecycle (rt s1) = Mounted ∧ st s1 ≠ st s) then
        match App env (st s1) with
        | inl error => (crash error s1).2
        | inr _ => (commit s1).2
        end
      else s1
  end.

Definition run (tr : list event) (s : Sys) : Sys := foldl (flip step) s tr.

Definition reachable (s : Sys) : Prop := ∃ tr, s = run tr initialSys.

(** The callbacks the Firebase SDK and the promises call: they write state
    cells and read none. The handlers of DOM events read the cells as of the
    last render, and React renders right after each of them. *)
Definition isCallback (e : event) : bool :=
  match e with
  | EAuthStateChanged _ _ | ESettled _ _ | ESnapshot _ _ | ESnapshotError _ _ => true
  | EMount | EUnmount | EChange _ | ESubmit => false
  end.

(** React batches: the state updates of the callbacks that run in one tick
    of the event loop are applied in order, and the component is rendered
    once, after the last of them. [step] is the tick of a single event. *)
Fixpoint dispatchAll (es : list event) (s : Sys) : Sys :=
  match es with
  | [] => s
  | e :: es' =>
      match dispatch e s with
      | (inl error, s1) => dispatchAll es' (modify_rt (push_uncaught error) s1).2
      | (inr _, s1) => dispatchAll es' s1
      end
  end.

Definition tick (es : list event) (s : Sys) : Sys :=
  let s1 := dispatchAll es s in
  if decide (lifecycle (rt s1) = Mounted ∧ st s1 ≠ st s) then
    match App env (st s1) with
    | inl error => (crash error s1).2
    | inr _ => (commit s1).2
    end
  else s1.

Definition runTicks (ticks : list (list event)) (s : Sys) : Sys :=
  foldl (flip tick) s ticks.

End Run.

(** ** Vocabulary of the properties *)

(** The snapshot most recently handed to the [next] callback along a
    trace: a snapshot counts when its listener was registered at the time,
    and [last] is the one before the trace. *)
Fixpoint delivered (env : Env) (tr : list event) (s : Sys)
    (last : list QueryDocumentSnapshot) : list QueryDocumentSnapshot :=
  match tr with
  | [] => last
  | e :: tr' =>
      delivered env tr' (step env e s)
        match e with
        | ESnapshot h docs =>
            if decide (is_Some (snapshotListeners (world s) !! h)) then docs else last
        | _ => last
        end
  end.

(** The feed query: the messages collection, ascending by [timestamp]. *)
Definition queryOk (env : Env) (q : Query) : Prop :=
  q_field q = "timestamp"%string ∧ q_dir q = asc
  ∧ coll_path (q_ref q) = messagesPath env.

(** The guard [db && user && isAuthReady] on a dependency array. *)
Definition wantedDeps (d : Deps) : Prop :=
  is_Some d.1.1 ∧ is_Some d.1.2 ∧ d.2 = true.

(** What holds of the system between a callback and the render that
    follows it. *)
Record Pre (env : Env) (s : Sys) : Prop := {
  pre_feed : dom (snapshotListeners (world s)) =
             match feedCleanup (rt s) with Some h => {[h]} | None => ∅ end;
  pre_auth : authObservers (world s) =
             match authCleanup (rt s) with Some h => {[h]} | None => ∅ end;
  pre_query : map_Forall (λ _ q, queryOk env q) (snapshotListeners (world s));
  pre_fresh : ∀ h, is_Some (snapshotListeners (world s) !! h) →
                   (h < next_handle (world s))%nat;
  pre_unmounted : lifecycle (rt s) ≠ Mounted →
                  feedCleanup (rt s) = None ∧ authCleanup (rt s) = None;
  pre_initial : lifecycle (rt s) = Initial → st s = initialState;
  pre_deps : lifecycle (rt s) = Mounted →
             ∃ d, feedDeps (rt s) = Some d
                  ∧ (is_Some (feedCleanup (rt s)) ↔ wantedDeps d);
  pre_uncaught : uncaught (rt s) = []
}.

(** What holds once the effects are committed: the feed effect last ran
    with the current dependencies, and the current state renders. *)
Definition Inv (env : Env) (s : Sys) : Prop :=
  Pre env s
  ∧ (lifecycle (rt s) = Mounted →
     feedDeps (rt s) = Some (feedDepsOf (st s)) ∧ ∃ v, App env (st s) = inr v).

(** [s1] comes after [s]: no handle was given back, and a listener handle
    that [s] had already retired is still retired. *)
Definition later (s s1 : Sys) : Prop :=
  (next_handle (world s) ≤ next_handle (world s1))%nat
  ∧ ∀ h, (h < next_handle (world s))%nat →
         snapshotListeners (world s) !! h = None →
         snapshotListeners (world s1) !! h = None.


(** The request [signIn] makes: with the custom token when there is a
    non-empty one, anonymously otherwise. *)
Definition chosenSignIn (env : Env) (a : Auth) : SignInCall :=
  match initialAuthToken env with
  | Some (c :: tok) => signInWithCustomToken a (c :: tok)
  | _ => signInAnonymously a
  end.

(** An append request as [handleSendMessage] builds it: on the messages
    collection, with a text that is not blank, a sender and the
    server-timestamp sentinel, and nothing else. *)
Definition wellFormedAppend (env : Env) (c : AddDocCall) : Prop :=
  coll_path (add_ref c) = messagesPath env
  ∧ ∃ text sender,
      trim text ≠ []
      ∧ add_fields c =
          <[ "text"%string := VStr text ]>
            (<[ "userId"%string := VStr sender ]>
               (<[ "timestamp"%string := VServerTimestamp ]> ∅)).

(** A message the presenter can show under any identity: a string
    [userId], a [timestamp] that is a Firestore timestamp or falsy (absent,
    or still pending on the server and read as null), and a [text] React
    accepts as a child. *)
Definition presentable (msg : jsobject) : Prop :=
  (∃ sender, msg !! "userId"%string = Some (VStr sender))
  ∧ (truthy (msg !! "timestamp"%string) = false
     ∨ ∃ t, msg !! "timestamp"%string = Some (VTimestamp t))
  ∧ from_option validChild true (msg !! "text"%string) = true.

(** The same, of a document of a snapshot. *)
Definition renderable (doc : QueryDocumentSnapshot) : Prop :=
  (∃ sender, doc_data doc !! "userId"%string = Some (VStr sender))
  ∧ (truthy (doc_data doc !! "timestamp"%string) = false
     ∨ ∃ t, doc_data doc !! "timestamp"%string = Some (VTimestamp t))
  ∧ from_option validChild true (doc_data doc !! "text"%string) = true.

(** [b] is the bubble of [msg] for the identity [u]: key, text and time
    suffix come from the message; an own message is right-aligned, blue and
    labelled "You", any other is left-aligned, grey and labelled with the
    first 8 code units of its sender id. *)
Definition shown (env : Env) (u : option User) (msg : jsobject) (b : Bubble) : Prop :=
  key b = msg !! "id"%string
  ∧ body b = msg !! "text"%string
  ∧ time b =
      match msg !! "timestamp"%string with
      | Some (VTimestamp t) => Some (VStr (lit " - " ++ toLocaleTimeString env t))
      | ts => ts
      end
  ∧ if isOwn msg u
    then rowClass b = lit "flex justify-end"
         ∧ bubbleClass b =
             lit "max-w-[70%] p-3 rounded-xl shadow-sm bg-blue-500 text-white rounded-br-none"
         ∧ label b = lit "You"
    else rowClass b = lit "flex justify-start"
         ∧ bubbleClass b =
             lit "max-w-[70%] p-3 rounded-xl shadow-sm bg-gray-300 text-gray-800 rounded-bl-none"
         ∧ ∃ sender, msg !! "userId"%string = Some (VStr sender)
                     ∧ label b = lit "User: " ++ take 8 sender ++ lit "...".

(** The outcome of the three constructors of the first effect. *)
Definition bootstrap (env : Env) : exn + Firestore * Auth :=
  match initializeApp env (firebaseConfig env) with
  | inl e => inl e
  | inr app =>
      match getFirestore env app with
      | inl e => inl e
      | inr d =>
          match getAuth env app with
          | inl e => inl e
          | inr a => inr (d, a)
          end
      end
  end.

(** ** A concrete session, used to instantiate the properties *)

Module Example.

Definition env : Env :=
  {| __app_id := None; __initial_auth_token := None; firebaseConfig := ∅;
     initializeApp := λ _, inr {| app_ref := 0 |};
     getFirestore := λ _, inr {| firestore_ref := 1 |};
     getAuth := λ _, inr {| auth_ref := 2 |};
     toLocaleTimeString := λ _, lit "12:00:00" |}.


Definition u1 : User := {| user_ref := 10; uid := lit "u1" |}.
Definition u2 : User := {| user_ref := 11; uid := lit "u2" |}.

(** The document [{id: "m1", text: "hello", userId: "u1", timestamp: T1}]. *)
Definition m1 : QueryDocumentSnapshot :=
  {| doc_id := lit "m1";
     doc_data := <[ "text"%string := VStr (lit "hello") ]>
                   (<[ "userId"%string := VStr (lit "u1") ]>
                      (<[ "timestamp"%string := VTimestamp 1000 ]> ∅)) |}.

(** A document written by somebody else, on a timestamp still pending. *)
Definition foreign : QueryDocumentSnapshot :=
  {| doc_id := lit "m3";
     doc_data := <[ "text"%string := VStr (lit "hey") ]>
                   (<[ "userId"%string := VStr (lit "abcdefghijkl") ]>
                      (<[ "timestamp"%string := VNull ]> ∅)) |}.

(** A document whose [text] is a map. *)
Definition textObject : QueryDocumentSnapshot :=
  {| doc_id := lit "m4";
     doc_data := <[ "text"%string := VObject 7 ]>
                   (<[ "userId"%string := VStr (lit "u1") ]> ∅) |}.

(** A document without [userId]. *)
Definition anonymous : QueryDocumentSnapshot :=
  {| doc_id := lit "m2";
     doc_data := <[ "text"%string := VStr (lit "hi") ]> ∅ |}.

(** Mounted and signed in as [u1]: the auth observer is handle 0, the
    sign-in promise 1 and the feed listener 2. *)
Definition signedIn : Sys :=
  run env [EMount; EAuthStateChanged 0 (Some u1)] initialSys.

(** [u1] has typed " hello ". *)
Definition drafted : Sys := run env [EChange (lit " hello ")] signedIn.

(** [u1] has submitted; the append promise is handle 3. *)
Definition submitted : Sys := run env [ESubmit] drafted.

(** [u1] has typed three spaces. *)
Definition blank : Sys := run env [EChange (lit "   ")] signedIn.

Definition permissionDenied : exn := FirebaseError "permission-denied".

(** A document of [u2] whose [timestamp] is absent. *)
Definition undated : QueryDocumentSnapshot :=
  {| doc_id := lit "m5";
     doc_data := <[ "text"%string := VStr (lit "yo") ]>
                   (<[ "userId"%string := VStr (lit "u2") ]> ∅) |}.

(** [u1] has received a message of their own and one of somebody else. *)
Definition twoMessages : Sys := run env [ESnapshot 2 [m1; foreign]] signedIn.

(** The two ticks that sign [u1] in. *)
Definition signIn : list (list event) :=
  [[EMount]; [EAuthStateChanged 0 (Some u1)]].

(** A snapshot with a message without [userId] and a sign-out, both in one
    tick. *)
Definition batchedSignOut : list event :=
  [ESnapshot 2 [anonymous]; EAuthStateChanged 0 None].

End Example.

(** * Properties *)

#[local] Set Warnings "-clear-no-such-hyp".

(** Unfolding of the monadic code down to state transformers. *)
Ltac munfold :=
  cbv [dispatch mount unmount commit crash handleSendMessage
       handleSendMessage_resume signIn signIn_resume authStateCallback
       snapshotCallback snapshotErrorCallback initEffect feedEffect
       setState setMessages setNewMessage setUser setDb setAuth setIsAuthReady
       fresh_handle console_error onAuthStateChanged unsubscribeAuth onSnapshot
       unsubscribe request_signIn addDoc await runAuthCleanup runFeedCleanup
       mbind mret M_bind M_ret get modify_st modify_rt modify_world try_catch call];
  cbn [st rt world fst snd].

(** ** [trim] *)

Lemma trimStart_nil (s : jsstring) :
  trimStart s = [] ↔ Forall (λ c, is_whitespace c = true) s.
Proof.
  induction s as [|c s IH]; simpl.
  - split; [constructor | done].
  - destruct (is_whitespace c) eqn:Hc.
    + rewrite IH. split; [by constructor | by inversion 1].
    + split; [done | intros [? ?]%Forall_cons; congruence].
Qed.

Lemma trimStart_head (s : jsstring) :
  trimStart s = [] ∨ ∃ c t, trimStart s = c :: t ∧ is_whitespace c = false.
Proof.
  induction s as [|c s IH]; simpl; [by left|].
  destruct (is_whitespace c) eqn:Hc; [done | right; eauto].
Qed.

(** The trimmed form is empty exactly for the empty and the
    whitespace-only strings. *)
Lemma trim_nil (s : jsstring) :
  trim s = [] ↔ Forall (λ c, is_whitespace c = true) s.
Proof.
  unfold trim, trimEnd. rewrite <- trimStart_nil.
  split.
  - intros H. apply (f_equal reverse) in H. rewrite reverse_involutive in H.
    change (reverse []) with (@nil N) in H. apply trimStart_nil in H.
    rewrite Forall_reverse in H.
    destruct (trimStart_head s) as [->|(c & t & Hs & Hc)]; [done|].
    rewrite Hs in H. apply Forall_cons in H as [? ?]. congruence.
  - intros ->. done.
Qed.

(** ** Steps that leave the state cells alone *)

Lemma step_same_state (env : Env) (e : event) (s s1 : Sys) :
  dispatch env e s = (inr (), s1) → st s1 = st s → step env e s = s1.
Proof.
  intros Hd Hst. unfold step. rewrite Hd.
  destruct (decide _) as [[_ Hne]|_]; [done | done].
Qed.

Lemma settle_addDoc_rejected (env : Env) (s : Sys) (p : nat) (error : exn) :
  awaiting (rt s) !! p = Some KAddDoc →
  step env (ESettled p (inl error)) s =
    {| st := st s; rt := resumed p (rt s);
       world := logged "Error sending message:" error (world s) |}.
Proof.
  intros Hp. apply step_same_state; [|done].
  munfold. rewrite Hp. reflexivity.
Qed.

Lemma submit_guard (env : Env) (s : Sys) :
  trim (newMessage (st s)) = [] ∨ user (st s) = None ∨ db (st s) = None →
  dispatch env ESubmit s = (inr (), s).
Proof.
  intros H. munfold. destruct (formShown s); [|done].
  destruct H as [H|[H|H]]; rewrite H; simpl; [done| |].
  - by destruct (bool_decide _), (db (st s)).
  - by destruct (bool_decide _).
Qed.

(** Rendering and committing effects never write to the state cells. *)
Lemma commit_st (env : Env) (s : Sys) : st (commit env s).2 = st s.
Proof.
  munfold. destruct (decide _); [done|].
  destruct (feedCleanup (rt s)); cbn;
    by destruct (db (st s)), (user (st s)), (isAuthReady (st s)).
Qed.

Lemma crash_st (env : Env) (error : exn) (s : Sys) : st (crash error s).2 = st s.
Proof. munfold. by destruct (authCleanup (rt s)), (feedCleanup (rt s)). Qed.

Lemma step_st (env : Env) (e : event) (s : Sys) :
  st (step env e s) = st (dispatch env e s).2.
Proof.
  unfold step. destruct (dispatch env e s) as [[error|[]] s1]; [done|]. cbn [snd].
  destruct (decide _); [|done].
  destruct (App env (st s1)); [apply (crash_st env) | apply commit_st].
Qed.

(** ** The composer *)

(** C3. Submitting when the draft is empty or consists of whitespace only,
    or when the identity or the database handle is missing, does nothing:
    the handler returns normally and the whole system (draft, append
    requests, console) is as before. *)
Theorem C3_rejected_submit_is_silent_noop (env : Env) (s : Sys) :
  Forall (λ c, is_whitespace c = true) (newMessage (st s))
  ∨ user (st s) = None ∨ db (st s) = None →
  dispatch env ESubmit s = (inr (), s) ∧ step env ESubmit s = s.
Proof.
  intros H. rewrite <- trim_nil in H.
  pose proof (submit_guard env s H) as Hd.
  split; [exact Hd | by apply step_same_state].
Qed.

(** C4. When the append promise rejects, the error is written to the
    console, the suspended handler is dropped, and nothing else changes:
    the draft and the message list are as before and no request is
    issued. *)
Theorem C4_rejected_append_keeps_draft
    (env : Env) (s : Sys) (p : nat) (error : exn) :
  awaiting (rt s) !! p = Some KAddDoc →
  let s' := step env (ESettled p (inl error)) s in
  s' = {| st := st s; rt := resumed p (rt s);
          world := logged "Error sending message:" error (world s) |}
  ∧ newMessage (st s') = newMessage (st s)
  ∧ messages (st s') = messages (st s)
  ∧ console (world s') = console (world s) ++ [(lit "Error sending message:", error)]
  ∧ addDocs (world s') = addDocs (world s)
  ∧ awaiting (rt s') = delete p (awaiting (rt s)).
Proof.
  intros Hp s'. subst s'. rewrite (settle_addDoc_rejected env s p error Hp).
  by repeat split.
Qed.

(** C1. A submit with a draft whose trimmed form is non-empty, an identity
    and a database handle issues exactly one append request, to the
    collection [artifacts/{appId}/public/data/messages], whose fields are
    the untrimmed draft, the uid of the identity and the server-timestamp
    sentinel; the draft is kept until the request is acknowledged, and the
    acknowledgment empties it. *)
Theorem C1_submit_appends_one_message
    (env : Env) (s : Sys) (d : Firestore) (u : User) :
  formShown s = true →
  db (st s) = Some d →
  user (st s) = Some u →
  trim (newMessage (st s)) ≠ [] →
  let s' := step env ESubmit s in
  let p := next_handle (world s) in
  ∃ fields : jsobject,
    addDocs (world s') = addDocs (world s) ++
      [{| add_ref := collection d
            (lit "artifacts/" ++ appId env ++ lit "/public/data/messages");
          add_fields := fields |}]
    ∧ fields !! "text"%string = Some (VStr (newMessage (st s)))
    ∧ fields !! "userId"%string = Some (VStr (uid u))
    ∧ fields !! "timestamp"%string = Some VServerTimestamp
    ∧ (∀ k, is_Some (fields !! k) → k ∈ ["text"; "userId"; "timestamp"]%string)
    ∧ st s' = st s
    ∧ console (world s') = console (world s)
    ∧ awaiting (rt s') !! p = Some KAddDoc
    ∧ newMessage (st (step env (ESettled p (inr ())) s')) = []
    ∧ ∀ s'' : Sys,
        lifecycle (rt s'') = Mounted →
        awaiting (rt s'') !! p = Some KAddDoc →
        newMessage (st (step env (ESettled p (inr ())) s'')) = [].
Proof.
  intros Hform Hdb Hu Htrim s' p.
  assert (Hack : ∀ s'' : Sys, lifecycle (rt s'') = Mounted →
            awaiting (rt s'') !! p = Some KAddDoc →
            newMessage (st (step env (ESettled p (inr ())) s'')) = []).
  { intros s'' Hm Hp. rewrite step_st. munfold. rewrite Hp. cbn.
    rewrite Hm. by destruct (decide _). }
  assert (Hs' : s' = (dispatch env ESubmit s).2
                ∧ dispatch env ESubmit s =
                  (inr (),
                   {| st := st s;
                      rt := (await p KAddDoc
                               {| st := st s; rt := rt s; world := world s |}).2.(rt);
                      world := (addDoc (collection d (messagesPath env))
                                  (messageFields (st s) u) s).2.(world) |})).
  { assert (Hd : ∃ s1, dispatch env ESubmit s = (inr (), s1) ∧ st s1 = st s
                  ∧ s1 = {| st := st s;
                      rt := (await p KAddDoc
                               {| st := st s; rt := rt s; world := world s |}).2.(rt);
                      world := (addDoc (collection d (messagesPath env))
                                  (messageFields (st s) u) s).2.(world) |}).
    { munfold. rewrite Hform, Hdb, Hu.
      rewrite bool_decide_eq_false_2 by done. cbn. eauto. }
    destruct Hd as (s1 & Hd & Hst & Hs1). subst s'.
    rewrite (step_same_state env ESubmit s s1 Hd Hst). rewrite Hd. by subst s1. }
  destruct Hs' as [Hs' Hd]. rewrite Hd in Hs'. cbn [snd] in Hs'.
  apply andb_prop in Hform as [Hm%bool_decide_eq_true _].
  exists (messageFields (st s) u).
  split_and!.
  - by rewrite Hs'.
  - done.
  - done.
  - done.
  - intros k [v Hk]. unfold messageFields in Hk.
    repeat (apply lookup_insert_Some in Hk as [[<- _]|[_ Hk]]; [set_solver|]).
    by rewrite lookup_empty in Hk.
  - by rewrite Hs'.
  - by rewrite Hs'.
  - rewrite Hs'. cbn. apply lookup_insert_eq.
  - apply Hack; rewrite Hs'; cbn; [done | apply lookup_insert_eq].
  - exact Hack.
Qed.

(** ** The invariant of reachable states *)

Ltac split_pre :=
  split;
  cbn [st rt world lifecycle crashed uncaught authCleanup feedDeps feedCleanup
       awaiting next_handle authObservers snapshotListeners signIns addDocs
       console set_lifecycle set_crashed push_uncaught set_authCleanup set_feed
       resumed logged].

Ltac pre_fin :=
  intros; simplify_eq/=;
  repeat match goal with
  | H : ?P → _ ∧ _, H' : ?P |- _ => specialize (H H')
  | H : ?x ≠ ?y → _ ∧ _ |- _ => specialize (H ltac:(congruence))
  | H : ?x = ?x → _ |- _ => specialize (H eq_refl)
  | H : ∃ _, _ |- _ => destruct H
  | H : _ ∧ _ |- _ => destruct H
  end; simplify_eq/=;
  try done; try congruence;
  try (eexists; split; [done|]; unfold wantedDeps; cbn; naive_solver);
  try (apply map_Forall_delete; done);
  try match goal with
      | H : is_Some (delete _ _ !! _) |- _ =>
          apply lookup_delete_is_Some in H as [? ?]; by auto
      end;
  try set_solver.

Ltac destruct_sys s :=
  let a := fresh "a" in
  destruct s as [a [lc cr un ac fd fc aw] [nh ao sl si ad co]];
  cbn [st rt world lifecycle crashed uncaught authCleanup feedDeps feedCleanup
       awaiting next_handle authObservers snapshotListeners signIns addDocs
       console] in *.

Lemma wantedDeps_of (a : AppState) :
  wantedDeps (feedDepsOf a)
  ↔ is_Some (db a) ∧ is_Some (user a) ∧ isAuthReady a = true.
Proof. unfold wantedDeps, feedDepsOf. cbn. by rewrite fmap_is_Some. Qed.

(** A callback never lets an exception escape and does not touch the feed
    effect: if the effect last ran with the dependencies [d0], it still
    has. The callback may run on a state that is not rendered yet. *)
Lemma Pre_dispatch_from (env : Env) (e : event) (s : Sys) (d0 : Deps) (Q : Prop) :
  Pre env s →
  (lifecycle (rt s) = Initial → d0 = feedDepsOf initialState ∧ Q) →
  (lifecycle (rt s) = Mounted → feedDeps (rt s) = Some d0 ∧ Q) →
  (dispatch env e s).1 = inr ()
  ∧ Pre env (dispatch env e s).2
  ∧ (lifecycle (rt (dispatch env e s).2) = Initial →
     d0 = feedDepsOf initialState ∧ Q)
  ∧ (lifecycle (rt (dispatch env e s).2) = Mounted →
     feedDeps (rt (dispatch env e s).2) = Some d0 ∧ Q).
Proof.
  intros [Hf Ha Hq Hfr Hu Hi Hd Hun] H0 Hsync.
  destruct_sys s.
  destruct e; munfold; cbn.
  - (* mount *)
    destruct (decide _) as [Hl|Hl]; cbn [fst snd rt st world lifecycle] in *.
    + specialize (Hi Hl). subst a. destruct (Hu ltac:(congruence)) as [Hfc Hac].
      destruct (H0 Hl) as [-> HQ]. cbn.
      destruct (initializeApp env (firebaseConfig env)) as [e1|app]; cbn;
        [|destruct (getFirestore env app) as [e1|d]; cbn;
          [|destruct (getAuth env app) as [e1|au]; cbn;
            [|destruct (initialAuthToken env) as [[|c tok]|]; cbn]]].
      all: split; [done|]; split; [|by split]; split_pre; pre_fin.
    + split; [done|]. split; [|by split]. split_pre; pre_fin.
  - (* unmount *)
    destruct (decide _) as [Hl|Hl]; cbn [fst snd rt st world lifecycle] in *.
    + destruct ac, fc; cbn; (split; [done|]; split; [|by split]);
        split_pre; pre_fin.
    + split; [done|]. split; [|by split]. split_pre; pre_fin.
  - (* auth state *)
    destruct (decide _) as [Hl|Hl]; cbn [fst snd rt st world lifecycle] in *.
    + repeat (case_decide; cbn);
        (split; [done|]; split; [|by split]); split_pre; pre_fin.
    + split; [done|]. split; [|by split]. split_pre; pre_fin.
  - (* a promise settles *)
    destruct (aw !! p) as [[]|]; cbn.
    + destruct outcome as [?|[]]; cbn;
        (split; [done|]; split; [|by split]); split_pre; pre_fin.
    + destruct outcome as [?|[]]; cbn; repeat (case_decide; cbn);
        (split; [done|]; split; [|by split]); split_pre; pre_fin.
    + split; [done|]. split; [|by split]. split_pre; pre_fin.
  - (* snapshot *)
    destruct (decide _) as [Hl|Hl]; cbn [fst snd rt st world lifecycle] in *.
    + repeat (case_decide; cbn);
        (split; [done|]; split; [|by split]); split_pre; pre_fin.
    + split; [done|]. split; [|by split]. split_pre; pre_fin.
  - (* snapshot error *)
    destruct (decide _) as [Hl|Hl]; cbn [fst snd rt st world lifecycle] in *;
      (split; [done|]; split; [|by split]); split_pre; pre_fin.
  - (* change *)
    unfold formShown. cbn.
    destruct (bool_decide_reflect (lc = Mounted)) as [->|Hnm]; cbn;
      [destruct (isAuthReady a); cbn|]; repeat (case_decide; cbn);
      (split; [done|]; split; [|by split]); split_pre; pre_fin.
  - (* submit *)
    unfold formShown. cbn.
    destruct (bool_decide_reflect (lc = Mounted)); cbn;
      [destruct (isAuthReady a); cbn;
       [destruct (bool_decide _), (db a), (user a)|]; cbn|];
      (split; [done|]; split; [|by split]); split_pre; pre_fin.
Qed.

(** The same for a callback that runs on a rendered state. *)
Lemma Pre_dispatch (env : Env) (e : event) (s : Sys) :
  Inv env s →
  (dispatch env e s).1 = inr ()
  ∧ Pre env (dispatch env e s).2
  ∧ (lifecycle (rt (dispatch env e s).2) = Mounted →
     feedDeps (rt (dispatch env e s).2) = Some (feedDepsOf (st s))
     ∧ ∃ v, App env (st s) = inr v).
Proof.
  intros [Hpre Hsync].
  destruct (Pre_dispatch_from env e s (feedDepsOf (st s))
              (∃ v, App env (st s) = inr v) Hpre) as (H1 & H2 & _ & H3); [|done|done].
  intros Hi. rewrite (pre_initial _ _ Hpre Hi). split; [done|]. by eexists.
Qed.

Ltac commit_fin Hfr :=
  intros; simplify_eq/=;
  lazymatch goal with
  | |- dom _ = _ => rewrite ?dom_insert_L, ?dom_delete_L; set_solver
  | |- map_Forall _ _ =>
      repeat first [ apply map_Forall_insert_2; [by repeat split|]
                   | apply map_Forall_delete ]; done
  | H : is_Some (_ !! ?h) |- (?h < _)%nat =>
      repeat first
        [ apply lookup_insert_is_Some in H as [->|[? H]]; [lia|]
        | apply lookup_delete_is_Some in H as [? H] ];
      specialize (Hfr _ H); lia
  | |- ∃ _, Some _ = Some _ ∧ _ =>
      eexists; split; [done|]; rewrite wantedDeps_of;
      repeat match goal with E : _ = _ |- _ => rewrite E end;
      split; [intros [? ?] | intros (? & ? & ?)];
      first [ by eauto | by exfalso; eapply is_Some_None; eauto | congruence | done ]
  | |- _ => first [ done | congruence ]
  end.

(** Committing a render re-runs the feed effect when its dependencies
    changed, after the cleanup of the previous run. *)
Lemma Pre_commit (env : Env) (s : Sys) :
  Pre env s → lifecycle (rt s) = Mounted →
  Pre env (commit env s).2
  ∧ lifecycle (rt (commit env s).2) = Mounted
  ∧ feedDeps (rt (commit env s).2) = Some (feedDepsOf (st s)).
Proof.
  intros [Hf Ha Hq Hfr Hu Hi Hd Hun] Hm.
  destruct_sys s. subst lc. munfold. cbn.
  destruct (decide _) as [Hs|Hs]; cbn.
  { split; [|done]. split_pre; pre_fin. }
  clear Hd Hu Hi.
  destruct fc as [h0|], (db a) as [d|] eqn:Hdb, (user a) as [u|] eqn:Hus,
    (isAuthReady a) eqn:Hr; cbn.
  all: split; [|done]; split_pre.
  all: commit_fin Hfr.
Qed.

Lemma Inv_crash (env : Env) (error : exn) (s : Sys) :
  Pre env s → Inv env (crash error s).2.
Proof.
  intros [Hf Ha Hq Hfr Hu Hi Hd Hun].
  destruct_sys s.
  munfold. destruct ac, fc; cbn; (split; [|done]); split_pre; pre_fin.
Qed.

Lemma Inv_initial (env : Env) : Inv env initialSys.
Proof.
  split; [|done]. split; cbn; try done.
  intros h [q Hq]. by rewrite lookup_empty in Hq.
Qed.

Lemma Inv_step (env : Env) (e : event) (s : Sys) :
  Inv env s → Inv env (step env e s).
Proof.
  intros HI. destruct (Pre_dispatch env e s HI) as (Hr & Hpre & Hdeps).
  unfold step. destruct (dispatch env e s) as [r s1]. cbn [fst snd] in *. subst r.
  destruct (decide _) as [[Hm Hne]|Hn].
  - destruct (App env (st s1)) as [error|v] eqn:HA; [by apply Inv_crash|].
    destruct (Pre_commit env s1 Hpre Hm) as (Hp & Hm' & Hd').
    split; [done|]. intros _. rewrite commit_st. eauto.
  - split; [done|]. intros Hm. destruct (Hdeps Hm) as [Hd Hv].
    destruct (decide (st s1 = st s)) as [->|?]; [done|]. destruct Hn. done.
Qed.

Lemma Inv_run (env : Env) (tr : list event) (s : Sys) :
  Inv env s → Inv env (run env tr s).
Proof.
  revert s. induction tr as [|e tr IH]; intros s HI; [done|].
  apply IH, Inv_step, HI.
Qed.

Lemma Inv_reachable (env : Env) (s : Sys) : reachable env s → Inv env s.
Proof. intros [tr ->]. apply Inv_run, Inv_initial. Qed.

(** *** Ticks with several callbacks *)

Lemma dispatchAll_from (env : Env) (es : list event) (s : Sys) (d0 : Deps)
    (Q : Prop) :
  Pre env s →
  (lifecycle (rt s) = Initial → d0 = feedDepsOf initialState ∧ Q) →
  (lifecycle (rt s) = Mounted → feedDeps (rt s) = Some d0 ∧ Q) →
  Pre env (dispatchAll env es s)
  ∧ (lifecycle (rt (dispatchAll env es s)) = Mounted →
     feedDeps (rt (dispatchAll env es s)) = Some d0 ∧ Q).
Proof.
  revert s. induction es as [|e es IH]; intros s Hpre H0 Hs; [done|].
  destruct (Pre_dispatch_from env e s d0 Q Hpre H0 Hs) as (Hr & Hpre1 & H01 & Hs1).
  cbn. destruct (dispatch env e s) as [r s1]. cbn [fst snd] in *. subst r.
  by apply IH.
Qed.

Lemma dispatchAll_Inv (env : Env) (es : list event) (s : Sys) :
  Inv env s →
  Pre env (dispatchAll env es s)
  ∧ (lifecycle (rt (dispatchAll env es s)) = Mounted →
     feedDeps (rt (dispatchAll env es s)) = Some (feedDepsOf (st s))
     ∧ ∃ v, App env (st s) = inr v).
Proof.
  intros [Hpre Hsync]. apply dispatchAll_from; [done| |done].
  intros Hi. rewrite (pre_initial _ _ Hpre Hi). split; [done|]. by eexists.
Qed.

(** The invariant holds after every tick, however many callbacks ran in it. *)
Lemma Inv_tick (env : Env) (es : list event) (s : Sys) :
  Inv env s → Inv env (tick env es s).
Proof.
  intros HI. destruct (dispatchAll_Inv env es s HI) as [Hpre Hdeps].
  unfold tick. cbv zeta.
  destruct (decide _) as [[Hm Hne]|Hn].
  - destruct (App env (st (dispatchAll env es s))) as [error|v] eqn:HA;
      [by apply Inv_crash|].
    destruct (Pre_commit env _ Hpre Hm) as (Hp & Hm' & Hd').
    split; [done|]. intros _. rewrite commit_st. eauto.
  - split; [done|]. intros Hm. destruct (Hdeps Hm) as [Hd Hv].
    destruct (decide (st (dispatchAll env es s) = st s)) as [->|?]; [done|].
    destruct Hn. done.
Qed.

Lemma Inv_runTicks (env : Env) (ticks : list (list event)) (s : Sys) :
  Inv env s → Inv env (runTicks env ticks s).
Proof.
  revert s. induction ticks as [|es ticks IH]; intros s HI; [done|].
  apply IH, Inv_tick, HI.
Qed.

(** A tick with one callback is a [step], so the traces of [run] are among
    those of [runTicks]. *)
Lemma tick_single (env : Env) (e : event) (s : Sys) :
  Inv env s → tick env [e] s = step env e s.
Proof.
  intros HI. pose proof (proj1 (Pre_dispatch env e s HI)) as Hok.
  unfold tick, step. cbn.
  destruct (dispatch env e s) as [r s1]. cbn [fst] in Hok. by subst r.
Qed.

Lemma run_runTicks (env : Env) (tr : list event) (s : Sys) :
  Inv env s → run env tr s = runTicks env ((λ e, [e]) <$> tr) s.
Proof.
  revert s. induction tr as [|e tr IH]; intros s HI; [done|].
  cbn. change (foldl (flip (step env)) (step env e s) tr)
    with (run env tr (step env e s)).
  rewrite IH by (by apply Inv_step).
  unfold runTicks. by rewrite tick_single.
Qed.

(** ** Consequences of the invariant *)

Lemma live_listener (env : Env) (s : Sys) (h : nat) :
  Inv env s → is_Some (snapshotListeners (world s) !! h) →
  feedCleanup (rt s) = Some h ∧ lifecycle (rt s) = Mounted
  ∧ is_Some (db (st s)) ∧ is_Some (user (st s)) ∧ isAuthReady (st s) = true.
Proof.
  intros [[Hf Ha Hq Hfr Hu Hi Hd Hun] Hsync] Hh.
  apply elem_of_dom in Hh. rewrite Hf in Hh.
  destruct (feedCleanup (rt s)) as [h'|] eqn:Hfc; [|set_solver].
  apply elem_of_singleton in Hh as ->.
  destruct (decide (lifecycle (rt s) = Mounted)) as [Hm|Hm];
    [|destruct (Hu Hm); congruence].
  split; [done|]. split; [done|].
  destruct (Hd Hm) as (d & Hfd & Hw). destruct (Hsync Hm) as [Hfd' _].
  rewrite Hfd' in Hfd. injection Hfd as <-.
  apply wantedDeps_of, Hw. eauto.
Qed.

Lemma live_observer (env : Env) (s : Sys) (h : nat) :
  Inv env s → h ∈ authObservers (world s) → lifecycle (rt s) = Mounted.
Proof.
  intros [[Hf Ha Hq Hfr Hu Hi Hd Hun] Hsync] Hh.
  destruct (decide (lifecycle (rt s) = Mounted)) as [Hm|Hm]; [done|].
  destruct (Hu Hm) as [_ Hac]. rewrite Ha, Hac in Hh. set_solver.
Qed.

Lemma dispatch_messages (env : Env) (e : event) (s : Sys) :
  Inv env s →
  messages (st (dispatch env e s).2) =
    match e with
    | ESnapshot h docs =>
        if decide (is_Some (snapshotListeners (world s) !! h))
        then fetchedMessage <$> docs else messages (st s)
    | _ => messages (st s)
    end.
Proof.
  intros HI.
  pose proof (pre_initial _ _ (proj1 HI)) as Hi.
  destruct e; try (pose proof (live_listener env s h HI) as Hlive);
    destruct_sys s; munfold; cbn.
  - destruct (decide _) as [Hl|Hl]; cbn; [|done].
    rewrite (Hi Hl). cbn.
    destruct (initializeApp env (firebaseConfig env)) as [e1|app]; cbn;
      [|destruct (getFirestore env app) as [e1|d]; cbn;
        [|destruct (getAuth env app) as [e1|au]; cbn;
          [|destruct (initialAuthToken env) as [[|c tok]|]; cbn]]]; done.
  - destruct (decide _); cbn; [|done]. by destruct ac, fc.
  - repeat (case_decide; cbn); done.
  - destruct (aw !! p) as [[]|]; cbn; [| |done];
      destruct outcome as [?|[]]; cbn; repeat (case_decide; cbn); done.
  - destruct (decide _) as [Hl|Hl]; cbn; [|done].
    destruct (Hlive Hl) as (_ & -> & _). done.
  - by destruct (decide _).
  - destruct (formShown _); cbn; [|done]. repeat (case_decide; cbn); done.
  - destruct (formShown _); cbn; [|done].
    by destruct (bool_decide _), (db a), (user a).
Qed.

Lemma step_messages (env : Env) (e : event) (s : Sys) :
  Inv env s →
  messages (st (step env e s)) =
    match e with
    | ESnapshot h docs =>
        if decide (is_Some (snapshotListeners (world s) !! h))
        then fetchedMessage <$> docs else messages (st s)
    | _ => messages (st s)
    end.
Proof. intros HI. rewrite step_st. by apply dispatch_messages. Qed.

Lemma messages_delivered (env : Env) (tr : list event) (s : Sys)
    (last : list QueryDocumentSnapshot) :
  Inv env s → messages (st s) = fetchedMessage <$> last →
  messages (st (run env tr s)) = fetchedMessage <$> delivered env tr s last.
Proof.
  revert s last. induction tr as [|e tr IH]; intros s last HI Hlast; [done|].
  cbn. apply IH; [by apply Inv_step|].
  rewrite step_messages by done.
  destruct e; try done. by destruct (decide _).
Qed.

Lemma fetchedMessage_lookup (doc : QueryDocumentSnapshot) (k : string) :
  fetchedMessage doc !! k =
    match doc_data doc !! k with
    | Some v => Some v
    | None => if decide (k = "id"%string) then Some (VStr (doc_id doc)) else None
    end.
Proof.
  unfold fetchedMessage. rewrite lookup_union.
  destruct (doc_data doc !! k) as [v|] eqn:Hk; cbn.
  - by destruct ({[ "id"%string := VStr (doc_id doc) ]} !! k).
  - case_decide as Hid.
    + subst k. by rewrite lookup_singleton_eq.
    + by rewrite lookup_singleton_ne.
Qed.

(** ** The feed synchronizer *)

(** C2. After any sequence of events the message list is the snapshot most
    recently handed to the feed callback, each document mapped to its
    fields plus [id], in the order delivered: nothing is sorted, dropped or
    merged. Every feed listener was registered on the messages collection
    ordered ascending by [timestamp]. *)
Theorem C2_messages_mirror_last_snapshot (env : Env) (tr : list event) :
  let s := run env tr initialSys in
  messages (st s) = fetchedMessage <$> delivered env tr initialSys []
  ∧ (∀ h docs, is_Some (snapshotListeners (world s) !! h) →
       messages (st (step env (ESnapshot h docs) s)) = fetchedMessage <$> docs)
  ∧ (∀ doc k, k ≠ "id"%string → fetchedMessage doc !! k = doc_data doc !! k)
  ∧ (∀ doc, doc_data doc !! "id"%string = None →
       fetchedMessage doc !! "id"%string = Some (VStr (doc_id doc)))
  ∧ (∀ h q, snapshotListeners (world s) !! h = Some q →
       q_field q = "timestamp"%string ∧ q_dir q = asc
       ∧ coll_path (q_ref q) =
           lit "artifacts/" ++ appId env ++ lit "/public/data/messages").
Proof.
  intros s.
  assert (HI : Inv env s) by apply Inv_run, Inv_initial.
  split_and!.
  - by apply messages_delivered; [apply Inv_initial|].
  - intros h docs Hh. rewrite step_messages by done. by rewrite decide_True.
  - intros doc k Hk. rewrite fetchedMessage_lookup.
    destruct (doc_data doc !! k); [done|]. by rewrite decide_False.
  - intros doc Hid. by rewrite fetchedMessage_lookup, Hid.
  - intros h q Hq. exact (pre_query _ _ (proj1 HI) h q Hq).
Qed.

(** ** Handles are fresh *)

Lemma later_refl (s : Sys) : later s s.
Proof. by split. Qed.

Lemma later_trans (s s1 s2 : Sys) : later s s1 → later s1 s2 → later s s2.
Proof.
  intros [Hn1 Hc1] [Hn2 Hc2]. split; [lia|].
  intros h Hh Hnone. apply Hc2; [lia|]. by apply Hc1.
Qed.

Ltac later_fin :=
  simpl; split; simpl; [lia|];
  let h := fresh "h" in let Hlt := fresh "Hlt" in let Hn := fresh "Hn" in
  intros h Hlt Hn;
  rewrite ?lookup_insert_None, ?lookup_delete_None;
  repeat split; first [ done | lia | by right ].

Lemma later_dispatch (env : Env) (e : event) (s : Sys) :
  Inv env s → later s (dispatch env e s).2.
Proof.
  intros HI. pose proof (pre_initial _ _ (proj1 HI)) as Hi.
  destruct e; destruct_sys s; munfold; cbn.
  - destruct (decide _) as [Hl|Hl]; cbn; [|by apply later_refl].
    rewrite (Hi Hl). cbn.
    destruct (initializeApp env (firebaseConfig env)) as [e1|app]; cbn;
      [|destruct (getFirestore env app) as [e1|d]; cbn;
        [|destruct (getAuth env app) as [e1|au]; cbn;
          [|destruct (initialAuthToken env) as [[|c tok]|]; cbn]]]; later_fin.
  - destruct (decide _); cbn; [|by apply later_refl].
    destruct ac, fc; later_fin.
  - repeat (case_decide; cbn); later_fin.
  - destruct (aw !! p) as [[]|]; cbn; [| |by apply later_refl];
      destruct outcome as [?|[]]; cbn; repeat (case_decide; cbn); later_fin.
  - repeat (case_decide; cbn); later_fin.
  - destruct (decide _); later_fin.
  - destruct (formShown _); cbn; [|by apply later_refl].
    repeat (case_decide; cbn); later_fin.
  - destruct (formShown _); cbn; [|by apply later_refl].
    destruct (bool_decide _), (db a), (user a); later_fin.
Qed.

Lemma later_commit (env : Env) (s : Sys) : later s (commit env s).2.
Proof.
  destruct_sys s; munfold; cbn.
  destruct (decide _); cbn; [by apply later_refl|].
  destruct fc, (db a), (user a), (isAuthReady a); later_fin.
Qed.

Lemma later_crash (error : exn) (s : Sys) : later s (crash error s).2.
Proof. destruct_sys s; munfold; cbn. destruct ac, fc; later_fin. Qed.

Lemma later_step (env : Env) (e : event) (s : Sys) :
  Inv env s → later s (step env e s).
Proof.
  intros HI. pose proof (later_dispatch env e s HI) as Hl.
  unfold step. destruct (dispatch env e s) as [[error|[]] s1]; cbn [snd] in *.
  - eapply later_trans; [done|]. by split.
  - destruct (decide _); [|done].
    destruct (App env (st s1)); (eapply later_trans; [done|]);
      [apply later_crash | apply later_commit].
Qed.

Lemma later_run (env : Env) (tr : list event) (s : Sys) :
  Inv env s → later s (run env tr s).
Proof.
  revert s. induction tr as [|e tr IH]; intros s HI; [apply later_refl|].
  cbn. eapply later_trans; [by apply later_step|]. by apply IH, Inv_step.
Qed.

Lemma listeners_empty_iff (env : Env) (s : Sys) :
  Inv env s → snapshotListeners (world s) = ∅ ↔ feedCleanup (rt s) = None.
Proof.
  intros [[Hf _ _ _ _ _ _ _] _]. rewrite <- dom_empty_iff_L, Hf.
  destruct (feedCleanup (rt s)); [|done].
  split; [|done]. intros H. exfalso. set_solver.
Qed.

Lemma listener_is_cleanup (env : Env) (s : Sys) (h : nat) :
  Inv env s →
  is_Some (snapshotListeners (world s) !! h) ↔ feedCleanup (rt s) = Some h.
Proof.
  intros [[Hf _ _ _ _ _ _ _] _]. rewrite <- elem_of_dom, Hf.
  destruct (feedCleanup (rt s)); set_solver.
Qed.

Lemma unmount_step (env : Env) (s : Sys) :
  lifecycle (rt (step env EUnmount s)) ≠ Mounted.
Proof.
  destruct_sys s. unfold step. munfold. cbn.
  destruct (decide (lc = Mounted)) as [->|Hm]; cbn.
  - destruct ac, fc; cbn; by destruct (decide (_ ∧ _)) as [[[=] _]|_].
  - by destruct (decide (_ ∧ _)) as [[? ?]|_].
Qed.

Lemma sign_out_user (env : Env) (s : Sys) (h : nat) (u : option User) :
  lifecycle (rt s) = Mounted → h ∈ authObservers (world s) →
  user (st (step env (EAuthStateChanged h u) s)) = u
  ∧ isAuthReady (st (step env (EAuthStateChanged h u) s)) = true.
Proof.
  intros Hm Hh. rewrite step_st. destruct_sys s. subst lc. munfold.
  rewrite decide_True by done. simpl. done.
Qed.

(** C5. In every reachable state of a mounted component the feed listener
    is registered exactly when the database handle, the identity and auth
    readiness are all present; no listener is registered while the identity
    is null, in particular right after the auth observer reports a
    sign-out; there is at most one listener; and a handle that has been
    unsubscribed is never registered again, so a re-activation always uses
    a new subscription. *)
Theorem C5_feed_open_iff_ready (env : Env) (tr : list event) :
  let s := run env tr initialSys in
  (lifecycle (rt s) = Mounted →
     (snapshotListeners (world s) ≠ ∅
      ↔ is_Some (db (st s)) ∧ is_Some (user (st s)) ∧ isAuthReady (st s) = true))
  ∧ (snapshotListeners (world s) ≠ ∅ →
     lifecycle (rt s) = Mounted
     ∧ is_Some (db (st s)) ∧ is_Some (user (st s)) ∧ isAuthReady (st s) = true)
  ∧ (user (st s) = None → snapshotListeners (world s) = ∅)
  ∧ (∀ h, h ∈ authObservers (world s) →
       snapshotListeners (world (step env (EAuthStateChanged h None) s)) = ∅)
  ∧ (size (snapshotListeners (world s)) ≤ 1)%nat
  ∧ (∀ h tr', (h < next_handle (world s))%nat →
       snapshotListeners (world s) !! h = None →
       snapshotListeners (world (run env tr' s)) !! h = None)
  ∧ (∀ h e, is_Some (snapshotListeners (world (step env e s)) !! h) →
       snapshotListeners (world s) !! h = None →
       (next_handle (world s) ≤ h)%nat).
Proof.
  intros s.
  assert (HI : Inv env s) by apply Inv_run, Inv_initial.
  assert (Hopen : snapshotListeners (world s) ≠ ∅ →
     lifecycle (rt s) = Mounted
     ∧ is_Some (db (st s)) ∧ is_Some (user (st s)) ∧ isAuthReady (st s) = true).
  { intros Hne. apply map_choose in Hne as (h & q & Hq).
    destruct (live_listener env s h HI) as (_ & ? & ? & ? & ?); eauto. }
  assert (Hnull : ∀ s', Inv env s' → user (st s') = None →
                        snapshotListeners (world s') = ∅).
  { intros s' HI' Hu.
    destruct (decide (snapshotListeners (world s') = ∅)) as [|Hne]; [done|].
    apply map_choose in Hne as (h & q & Hq).
    destruct (live_listener env s' h HI') as (_ & _ & _ & [u Hu'] & _); eauto.
    congruence. }
  split_and!.
  - intros Hm. split; [by intros ?%Hopen; naive_solver|].
    intros Hw. rewrite (listeners_empty_iff env s HI).
    destruct HI as [Hpre Hsync].
    destruct (pre_deps _ _ Hpre Hm) as (d & Hd & Hiff).
    destruct (Hsync Hm) as [Hd' _]. rewrite Hd' in Hd. injection Hd as <-.
    apply wantedDeps_of, Hiff in Hw as [h Hh]. congruence.
  - exact Hopen.
  - by apply Hnull.
  - intros h Hh. apply Hnull; [by apply Inv_step|].
    apply sign_out_user; [|done]. by eapply live_observer.
  - rewrite <- size_dom, (pre_feed _ _ (proj1 HI)).
    destruct (feedCleanup (rt s)); [rewrite size_singleton | rewrite size_empty]; lia.
  - intros h tr' Hlt Hnone. by apply (later_run env tr' s HI).
  - intros h e Hlive Hnone.
    destruct (decide (next_handle (world s) ≤ h)%nat) as [|Hlt]; [done|].
    destruct (later_step env e s HI) as [_ Hc].
    rewrite Hc in Hlive; [by destruct Hlive | lia | done].
Qed.

(** C6. Once the feed listener has been unsubscribed (by the effect cleanup
    or by unmounting) a snapshot delivered on its handle, at any later
    time, changes nothing: the system, and so the message list, is as it
    was. Unmounting leaves no listener registered. *)
Theorem C6_snapshot_after_unsubscribe_is_noop
    (env : Env) (tr : list event) (h : nat) (e : event) :
  let s := run env tr initialSys in
  is_Some (snapshotListeners (world s) !! h) →
  snapshotListeners (world (step env e s)) !! h = None →
  (∀ tr' docs,
     let s' := run env tr' (step env e s) in
     step env (ESnapshot h docs) s' = s'
     ∧ messages (st (step env (ESnapshot h docs) s')) = messages (st s'))
  ∧ snapshotListeners (world (step env EUnmount s)) = ∅.
Proof.
  intros s Hlive Hgone.
  assert (HI : Inv env s) by apply Inv_run, Inv_initial.
  split.
  - intros tr' docs s'.
    assert (Hnone : snapshotListeners (world s') !! h = None).
    { apply (later_run env tr' (step env e s)); [by apply Inv_step| |done].
      pose proof (pre_fresh _ _ (proj1 HI) h Hlive).
      destruct (later_step env e s HI) as [Hn _]. lia. }
    assert (Hs : step env (ESnapshot h docs) s' = s').
    { apply step_same_state; [|done]. munfold.
      rewrite decide_False; [done|]. rewrite Hnone. by intros [? ?]. }
    by rewrite Hs.
  - apply (listeners_empty_iff env); [by apply Inv_step|].
    apply (pre_unmounted _ _ (proj1 (Inv_step env EUnmount s HI))).
    apply unmount_step.
Qed.

(** ** Auth readiness *)

Lemma dispatch_ready (env : Env) (e : event) (s : Sys) :
  isAuthReady (st s) = true → isAuthReady (st (dispatch env e s).2) = true.
Proof.
  intros Hr. destruct_sys s. destruct e; munfold; cbn.
  - destruct (decide _) as [Hl|Hl]; cbn; [|done].
    destruct (initializeApp env (firebaseConfig env)) as [e1|app]; cbn;
      [|destruct (getFirestore env app) as [e1|d]; cbn;
        [|destruct (getAuth env app) as [e1|au]; cbn;
          [|destruct (initialAuthToken env) as [[|c tok]|]; cbn]]];
      destruct (db a), (user a); rewrite ?Hr; simpl; done.
  - destruct (decide _); cbn; [|done]. by destruct ac, fc.
  - repeat (case_decide; simpl); done.
  - destruct (aw !! p) as [[]|]; cbn; [| |done];
      destruct outcome as [?|[]]; cbn; repeat (case_decide; simpl); done.
  - repeat (case_decide; simpl); done.
  - by destruct (decide _).
  - destruct (formShown _); cbn; [|done]. repeat (case_decide; simpl); done.
  - destruct (formShown _); cbn; [|done].
    by destruct (bool_decide _), (db a), (user a).
Qed.

Lemma step_ready (env : Env) (e : event) (s : Sys) :
  isAuthReady (st s) = true → isAuthReady (st (step env e s)) = true.
Proof. intros Hr. rewrite step_st. by apply dispatch_ready. Qed.

Lemma run_ready (env : Env) (tr : list event) (s : Sys) :
  isAuthReady (st s) = true → isAuthReady (st (run env tr s)) = true.
Proof.
  revert s. induction tr as [|e tr IH]; intros s Hr; [done|].
  cbn. by apply IH, step_ready.
Qed.

Lemma loading_iff (env : Env) (a : AppState) :
  (∃ caption, App env a = inr (LoadingView caption)) ↔ isAuthReady a = false.
Proof.
  unfold App. destruct (isAuthReady a); cbn; [|split; [done|eauto]].
  split; [|done]. intros [c Hc].
  destruct (messages a); [done|].
  destruct (renderMessages _ _ _); [done|]. by destruct (checkChildren _).
Qed.

(** C9. The ready flag starts false; the auth observer sets it, whatever
    identity it reports; once true it stays true under every event. The
    loading screen is rendered exactly while the flag is false, so it never
    comes back: after a sign-out the identity is null and the chat screen
    is still the one rendered. *)
Theorem C9_auth_readiness_is_monotone
    (env : Env) (tr tr' : list event) (h : nat) (u : option User) :
  let s := run env tr initialSys in
  isAuthReady (st initialSys) = false
  ∧ (h ∈ authObservers (world s) →
       isAuthReady (st (step env (EAuthStateChanged h u) s)) = true
       ∧ user (st (step env (EAuthStateChanged h u) s)) = u)
  ∧ (isAuthReady (st s) = true →
       isAuthReady (st (run env tr' s)) = true
       ∧ ∀ caption, App env (st (run env tr' s)) ≠ inr (LoadingView caption))
  ∧ (∀ a, (∃ caption, App env a = inr (LoadingView caption))
          ↔ isAuthReady a = false).
Proof.
  intros s.
  assert (HI : Inv env s) by apply Inv_run, Inv_initial.
  split_and!.
  - done.
  - intros Hh.
    destruct (sign_out_user env s h u) as [Hu Hr]; [by eapply live_observer|done|].
    done.
  - intros Hr. pose proof (run_ready env tr' s Hr) as Hr'.
    split; [done|]. intros caption Hc.
    assert (isAuthReady (st (run env tr' s)) = false); [|congruence].
    apply (loading_iff env). eauto.
  - apply loading_iff.
Qed.

(** ** Errors *)









(** ** The presenter *)

Lemma renderLabel_inr (msg : jsobject) (u : option User) (l : jsstring) :
  renderLabel msg u = inr l →
  if isOwn msg u then l = lit "You"
  else ∃ sender, msg !! "userId"%string = Some (VStr sender)
                 ∧ l = lit "User: " ++ take 8 sender ++ lit "...".
Proof.
  unfold renderLabel. destruct (isOwn msg u); [by intros [= <-]|].
  destruct (msg !! "userId"%string) as [[]|]; try done.
  intros [= <-]. eauto.
Qed.

Lemma renderMessage_inr (env : Env) (u : option User) (msg : jsobject) (b : Bubble) :
  renderMessage env u msg = inr b →
  renderLabel msg u = inr (label b)
  ∧ renderTime env msg = inr (time b)
  ∧ key b = msg !! "id"%string
  ∧ body b = msg !! "text"%string
  ∧ rowClass b =
      (if isOwn msg u then lit "flex justify-end" else lit "flex justify-start")
  ∧ bubbleClass b =
      (if isOwn msg u
       then lit "max-w-[70%] p-3 rounded-xl shadow-sm bg-blue-500 text-white rounded-br-none"
       else lit "max-w-[70%] p-3 rounded-xl shadow-sm bg-gray-300 text-gray-800 rounded-bl-none").
Proof.
  unfold renderMessage.
  destruct (renderLabel msg u) as [|l]; [done|].
  destruct (renderTime env msg) as [|t]; [done|].
  intros [= <-]. cbn. by destruct (isOwn msg u).
Qed.

Lemma renderMessages_inr (env : Env) (u : option User) (msgs : list jsobject)
    (bs : list Bubble) :
  renderMessages env u msgs = inr bs ↔
  Forall2 (λ msg b, renderMessage env u msg = inr b) msgs bs.
Proof.
  revert bs. induction msgs as [|msg msgs IH]; intros bs; cbn.
  - split; [intros [= <-]; constructor | by inversion 1].
  - destruct (renderMessage env u msg) as [e|b] eqn:Hb.
    { split; [done|]. inversion 1; congruence. }
    destruct (renderMessages env u msgs) as [e|bs'] eqn:Hbs.
    { split; [done|]. inversion 1 as [|? b' ? bs'' Hb' Hbs']; subst.
      apply IH in Hbs'. congruence. }
    split.
    + intros [= <-]. constructor; [done|]. by apply IH.
    + inversion 1 as [|? b' ? bs'' Hb' Hbs']; subst.
      apply IH in Hbs'. congruence.
Qed.

Lemma isOwn_signed_in (msg : jsobject) (u : User) :
  isOwn msg (Some u) = true ↔ msg !! "userId"%string = Some (VStr (uid u)).
Proof.
  unfold isOwn. destruct (msg !! "userId"%string) as [[]|]; try done.
  rewrite bool_decide_eq_true. split; congruence.
Qed.

Lemma renderTime_inr (env : Env) (msg : jsobject) (t : option value) :
  renderTime env msg = inr t →
  t = match msg !! "timestamp"%string with
      | Some (VTimestamp ms) => Some (VStr (lit " - " ++ toLocaleTimeString env ms))
      | ts => ts
      end.
Proof.
  unfold renderTime. destruct (msg !! "timestamp"%string) as [v|]; [|by intros [= <-]].
  destruct (truthy (Some v)) eqn:Htr.
  - destruct v; try done. by intros [= <-].
  - destruct v; try done; by intros [= <-].
Qed.

(** A bubble that was built is the bubble of its message. *)
Lemma renderMessage_shown (env : Env) (u : option User) (msg : jsobject)
    (b : Bubble) :
  renderMessage env u msg = inr b → shown env u msg b.
Proof.
  intros Hb.
  destruct (renderMessage_inr env _ _ _ Hb) as (Hl & Ht & Hk & Hbody & Hrow & Hbc).
  apply renderLabel_inr in Hl. apply renderTime_inr in Ht.
  unfold shown. split_and!; [done..|].
  by destruct (isOwn msg u).
Qed.

Lemma checkChildren_inr (bs bs' : list Bubble) :
  checkChildren bs = inr bs' ↔
  bs' = bs ∧ Forall (λ b, from_option validChild true (body b) = true) bs.
Proof.
  revert bs'. induction bs as [|b bs IH]; intros bs'; cbn.
  - split; [by intros [= <-] | by intros [-> _]].
  - destruct (from_option validChild true (body b)) eqn:Hb.
    + destruct (checkChildren bs) as [e|r].
      * split; [done|]. intros [-> [_ H]%Forall_cons].
        discriminate (proj2 (IH bs) (conj eq_refl H)).
      * destruct (proj1 (IH r) eq_refl) as [-> H].
        split; [by intros [= <-]; split; [|constructor] | by intros [-> _]].
    + split; [done|]. intros [_ [H _]%Forall_cons]. congruence.
Qed.

(** What a successful render of the chat screen is. *)
Lemma App_chat_inr (env : Env) (a : AppState) (v : View) :
  isAuthReady a = true →
  App env a = inr v ↔
  match messages a with
  | [] => v = ChatView (userIdText (user a))
               (inl (lit "No messages yet. Start chatting!")) (newMessage a)
  | _ :: _ =>
      ∃ bs, renderMessages env (user a) (messages a) = inr bs
            ∧ Forall (λ b, from_option validChild true (body b) = true) bs
            ∧ v = ChatView (userIdText (user a)) (inr bs) (newMessage a)
  end.
Proof.
  intros Hr. unfold App. rewrite Hr. cbn.
  destruct (messages a) as [|m ms]; [split; congruence|].
  destruct (renderMessages env (user a) (m :: ms)) as [e|bs] eqn:Hbs.
  { split; [done|]. by intros (? & ? & _). }
  destruct (checkChildren bs) as [e|bs'] eqn:Hc.
  - split; [done|]. intros (bs0 & [= <-] & Hall & _).
    by rewrite (proj2 (checkChildren_inr bs bs) (conj eq_refl Hall)) in Hc.
  - apply checkChildren_inr in Hc as [-> Hall]. split.
    + intros [= <-]. eauto.
    + by intros (bs0 & [= <-] & _ & ->).
Qed.

Lemma presentable_renders (env : Env) (u : option User) (msg : jsobject) :
  presentable msg →
  ∃ b, renderMessage env u msg = inr b
       ∧ from_option validChild true (body b) = true.
Proof.
  intros ([sender Hs] & Hts & Htext).
  unfold renderMessage, renderLabel, renderTime. rewrite Hs.
  destruct Hts as [Hf|[t Ht]].
  - rewrite Hf. destruct (isOwn msg u); eauto.
  - rewrite Ht. cbn. destruct (isOwn msg u); eauto.
Qed.

Lemma presentable_all (env : Env) (u : option User) (msgs : list jsobject) :
  Forall presentable msgs →
  ∃ bs, renderMessages env u msgs = inr bs
        ∧ Forall (λ b, from_option validChild true (body b) = true) bs.
Proof.
  induction 1 as [|msg msgs Hmsg _ (bs & IH & Hall)]; cbn; [by eauto|].
  destruct (presentable_renders env u msg Hmsg) as (b & -> & Hb).
  rewrite IH. eauto.
Qed.

(** Every presentable list is rendered, one bubble per message. *)
Lemma App_presentable (env : Env) (a : AppState) :
  isAuthReady a = true → messages a ≠ [] → Forall presentable (messages a) →
  ∃ bs, App env a = inr (ChatView (userIdText (user a)) (inr bs) (newMessage a))
        ∧ Forall2 (shown env (user a)) (messages a) bs.
Proof.
  intros Hr Hne Hall.
  destruct (presentable_all env (user a) _ Hall) as (bs & Hbs & Hvalid).
  exists bs. split.
  - apply App_chat_inr; [done|]. destruct (messages a); [done|]. eauto.
  - apply renderMessages_inr in Hbs.
    eapply Forall2_impl; [done|]. intros msg b. apply renderMessage_shown.
Qed.

Lemma App_shown (env : Env) (a : AppState) (line : jsstring) (bs : list Bubble)
    (input : jsstring) :
  isAuthReady a = true → App env a = inr (ChatView line (inr bs) input) →
  messages a ≠ []
  ∧ line = userIdText (user a) ∧ input = newMessage a
  ∧ Forall2 (λ msg b, renderMessage env (user a) msg = inr b) (messages a) bs
  ∧ Forall (λ b, from_option validChild true (body b) = true) bs.
Proof.
  intros Hr HA. apply App_chat_inr in HA; [|done].
  destruct (messages a) as [|m ms] eqn:Hm; [done|].
  destruct HA as (bs0 & Hbs & Hall & [= -> <- ->]).
  split_and!; try done. by apply renderMessages_inr.
Qed.

(** C8. On the chat screen an empty list shows the placeholder. A list of
    presentable messages is shown as one bubble per message, in order, and
    so is every list whose render succeeds. The bubble of a message whose
    sender id equals the uid of the identity is right-aligned, blue and
    labelled "You"; any other bubble is left-aligned, grey and labelled with
    "User: ", the first 8 code units of the sender id and "...". *)
Theorem C8_own_and_foreign_bubbles (env : Env) (a : AppState) :
  isAuthReady a = true →
  (messages a = [] →
     App env a = inr (ChatView (userIdText (user a))
                        (inl (lit "No messages yet. Start chatting!"))
                        (newMessage a)))
  ∧ lit "No messages yet" `prefix_of` lit "No messages yet. Start chatting!"
  ∧ (messages a ≠ [] → Forall presentable (messages a) →
     ∃ bs, App env a = inr (ChatView (userIdText (user a)) (inr bs) (newMessage a))
           ∧ Forall2 (shown env (user a)) (messages a) bs)
  ∧ (∀ line bs input, App env a = inr (ChatView line (inr bs) input) →
       Forall2 (shown env (user a)) (messages a) bs)
  ∧ (∀ msg b, shown env (user a) msg b →
       if isOwn msg (user a)
       then rowClass b = lit "flex justify-end" ∧ label b = lit "You"
       else rowClass b = lit "flex justify-start"
            ∧ ∃ sender, msg !! "userId"%string = Some (VStr sender)
                        ∧ label b = lit "User: " ++ take 8 sender ++ lit "...")
  ∧ (∀ msg u, user a = Some u →
       (isOwn msg (user a) = true ↔ msg !! "userId"%string = Some (VStr (uid u))))
  ∧ lit "flex justify-end" ≠ lit "flex justify-start".
Proof.
  intros Hr. split_and!.
  - intros Hm. apply App_chat_inr; [done|]. by rewrite Hm.
  - by exists (lit ". Start chatting!").
  - by apply App_presentable.
  - intros line bs input HA.
    destruct (App_shown env a line bs input Hr HA) as (_ & _ & _ & Hall & _).
    eapply Forall2_impl; [done|]. intros msg b. apply renderMessage_shown.
  - intros msg b (_ & _ & _ & Hown).
    destruct (isOwn msg (user a)); naive_solver.
  - intros msg u ->. apply isOwn_signed_in.
  - by vm_compute.
Qed.

(** ** Messages without sender *)

Lemma rendered_has_sender (env : Env) (u : User) (msg : jsobject) (b : Bubble) :
  renderMessage env (Some u) msg = inr b →
  ∃ sender, msg !! "userId"%string = Some (VStr sender).
Proof.
  intros Hb. destruct (renderMessage_inr env _ _ _ Hb) as (Hl & _).
  apply renderLabel_inr in Hl.
  destruct (isOwn msg (Some u)) eqn:Hown.
  - apply isOwn_signed_in in Hown. eauto.
  - destruct Hl as (sender & ? & _). eauto.
Qed.

Lemma App_renders_each (env : Env) (a : AppState) (v : View) :
  isAuthReady a = true → App env a = inr v →
  ∀ msg, msg ∈ messages a →
         ∃ b, renderMessage env (user a) msg = inr b
              ∧ from_option validChild true (body b) = true.
Proof.
  intros Hr HA msg Hin. apply App_chat_inr in HA; [|done].
  destruct (messages a) as [|m ms] eqn:Hm; [by apply elem_of_nil in Hin|].
  destruct HA as (bs & Hbs & Hall & _). apply renderMessages_inr in Hbs.
  apply list_elem_of_lookup in Hin as [i Hi].
  destruct (Forall2_lookup_l _ _ _ _ _ Hbs Hi) as (b & Hb & Hmb).
  exists b. split; [done|]. exact (Forall_lookup_1 _ _ _ _ Hall Hb).
Qed.

Lemma App_has_senders (env : Env) (a : AppState) (u : User) (v : View) :
  isAuthReady a = true → user a = Some u → App env a = inr v →
  ∀ msg, msg ∈ messages a → ∃ sender, msg !! "userId"%string = Some (VStr sender).
Proof.
  intros Hr Hu HA msg Hin.
  destruct (App_renders_each env a v Hr HA msg Hin) as (b & Hb & _).
  rewrite Hu in Hb. by eapply rendered_has_sender.
Qed.

Lemma crash_crashed (error : exn) (s : Sys) :
  crashed (rt (crash error s).2) = Some error
  ∧ lifecycle (rt (crash error s).2) = Unmounted.
Proof. munfold. by destruct (authCleanup (rt s)), (feedCleanup (rt s)). Qed.

Lemma App_invalid_text (env : Env) (a : AppState) (msg : jsobject) :
  isAuthReady a = true → msg ∈ messages a →
  from_option validChild true (msg !! "text"%string) = false →
  ∃ error, App env a = inl error.
Proof.
  intros Hr Hin Hbad.
  destruct (App env a) as [error|v] eqn:HA; [by eauto|].
  destruct (App_renders_each env a v Hr HA msg Hin) as (b & Hb & Hvalid).
  destruct (renderMessage_inr env _ _ _ Hb) as (_ & _ & _ & Hbody & _).
  rewrite Hbody in Hvalid. congruence.
Qed.

(** A tick whose render throws unmounts the component. *)
Lemma tick_crashes (env : Env) (es : list event) (s : Sys) (error : exn) :
  Inv env s →
  lifecycle (rt (dispatchAll env es s)) = Mounted →
  App env (st (dispatchAll env es s)) = inl error →
  tick env es s = (crash error (dispatchAll env es s)).2.
Proof.
  intros HI Hm Hbad.
  destruct (dispatchAll_Inv env es s HI) as [_ Hdeps].
  unfold tick. cbv zeta.
  destruct (decide _) as [_|Hn]; [by rewrite Hbad|].
  exfalso. destruct (Hdeps Hm) as [_ [v Hv]].
  assert (Hst : st (dispatchAll env es s) = st s).
  { destruct (decide (st (dispatchAll env es s) = st s)); [done|]. by destruct Hn. }
  rewrite Hst in Hbad. congruence.
Qed.

(** A tick that leaves a mounted component with an identity and a message
    without sender ends in a render that throws. *)
Lemma tick_without_sender_crashes
    (env : Env) (es : list event) (s : Sys) (u : User) (msg : jsobject) :
  Inv env s →
  lifecycle (rt (dispatchAll env es s)) = Mounted →
  isAuthReady (st (dispatchAll env es s)) = true →
  user (st (dispatchAll env es s)) = Some u →
  msg ∈ messages (st (dispatchAll env es s)) →
  msg !! "userId"%string = None →
  ∃ error, crashed (rt (tick env es s)) = Some error
           ∧ lifecycle (rt (tick env es s)) = Unmounted.
Proof.
  intros HI Hm Hr Hu Hin Hnone.
  assert (Hbad : ∃ error, App env (st (dispatchAll env es s)) = inl error).
  { destruct (App env (st (dispatchAll env es s))) as [error|v] eqn:HA; [by eauto|].
    destruct (App_has_senders env _ u v Hr Hu HA msg Hin) as [sender Hs].
    congruence. }
  destruct Hbad as [error Hbad]. exists error.
  rewrite (tick_crashes env es s error HI Hm Hbad). apply crash_crashed.
Qed.

(** C10, as the code has it. A list of messages with string sender ids is
    rendered although timestamps are absent, and then without time suffix.
    With a non-null identity a message without [userId] makes the label,
    and so the render, throw a TypeError: a render succeeds only if every
    message has a string [userId], and a tick that ends with an identity
    and such a message unmounts the component. With a null identity the
    two undefined values compare equal and the label is "You". *)
Theorem C10_label_needs_sender_unless_signed_out (env : Env) :
  (∀ a, isAuthReady a = true → messages a ≠ [] →
        Forall presentable (messages a) →
        ∃ bs, App env a =
                inr (ChatView (userIdText (user a)) (inr bs) (newMessage a))
              ∧ Forall2 (λ msg b, msg !! "timestamp"%string = None → time b = None)
                  (messages a) bs)
  ∧ (∀ u msg, msg !! "userId"%string = None →
       renderLabel msg (Some u) =
         inl (TypeError "Cannot read properties of undefined (reading 'substring')")
       ∧ ∃ error, renderMessage env (Some u) msg = inl error)
  ∧ (∀ a u msg, isAuthReady a = true → user a = Some u →
       msg ∈ messages a → msg !! "userId"%string = None →
       ∃ error, App env a = inl error)
  ∧ (∀ a u v, isAuthReady a = true → user a = Some u → App env a = inr v →
       ∀ msg, msg ∈ messages a →
              ∃ sender, msg !! "userId"%string = Some (VStr sender))
  ∧ (∀ ticks es u msg,
       let s := runTicks env ticks initialSys in
       lifecycle (rt (dispatchAll env es s)) = Mounted →
       isAuthReady (st (dispatchAll env es s)) = true →
       user (st (dispatchAll env es s)) = Some u →
       msg ∈ messages (st (dispatchAll env es s)) →
       msg !! "userId"%string = None →
       ∃ error, crashed (rt (tick env es s)) = Some error
                ∧ lifecycle (rt (tick env es s)) = Unmounted)
  ∧ (∀ msg, msg !! "userId"%string = None →
       renderLabel msg None = inr (lit "You")).
Proof.
  split_and!.
  - intros a Hr Hne Hall.
    destruct (App_presentable env a Hr Hne Hall) as (bs & HA & Hshown).
    exists bs. split; [done|].
    eapply Forall2_impl; [done|]. intros msg b (_ & _ & Ht & _) Hts.
    by rewrite Hts in Ht.
  - intros u msg Hs.
    assert (Hl : renderLabel msg (Some u) =
              inl (TypeError "Cannot read properties of undefined (reading 'substring')")).
    { unfold renderLabel, isOwn. by rewrite Hs. }
    split; [done|]. unfold renderMessage. rewrite Hl. eauto.
  - intros a u msg Hr Hu Hin Hs.
    destruct (App env a) as [error|v] eqn:HA; [by eauto|].
    destruct (App_has_senders env a u v Hr Hu HA msg Hin) as [sender Hs'].
    congruence.
  - apply App_has_senders.
  - intros ticks es u msg s. apply tick_without_sender_crashes.
    apply Inv_runTicks, Inv_initial.
  - intros msg Hs. unfold renderLabel, isOwn. by rewrite Hs.
Qed.

(** The claim C10 as the specification states it fails: when the snapshot
    that holds a message without [userId] and a sign-out run in the same
    tick, the render that follows finds a null identity and does not
    throw. *)
Lemma C10_batched_sign_out_renders_senderless :
  ¬ (∀ (env : Env) (ticks : list (list event)) (es : list event) (h : nat)
       (docs : list QueryDocumentSnapshot) (doc : QueryDocumentSnapshot),
       let s := runTicks env ticks initialSys in
       Forall (λ e, isCallback e = true) es →
       is_Some (snapshotListeners (world s) !! h) →
       ESnapshot h docs ∈ es → doc ∈ docs →
       doc_data doc !! "userId"%string = None →
       ∃ error, crashed (rt (tick env es s)) = Some error).
Proof.
  intros H.
  destruct (H Example.env Example.signIn Example.batchedSignOut 2%nat
              [Example.anonymous] Example.anonymous)
    as [error He].
  - by repeat constructor.
  - vm_compute. eexists. reflexivity.
  - unfold Example.batchedSignOut. set_solver.
  - set_solver.
  - by vm_compute.
  - vm_compute in He. discriminate He.
Qed.

(** ** The properties on the concrete session *)

Lemma C1_witness :
  formShown Example.drafted = true
  ∧ trim (newMessage (st Example.drafted)) ≠ []
  ∧ length (addDocs (world (step Example.env ESubmit Example.drafted))) = 1%nat
  ∧ newMessage (st (step Example.env (ESettled 3%nat (inr ()))
                      (step Example.env ESubmit Example.drafted))) = [].
Proof.
  assert (H1 : formShown Example.drafted = true) by (vm_compute; reflexivity).
  assert (H2 : db (st Example.drafted) = Some {| firestore_ref := 1 |})
    by (vm_compute; reflexivity).
  assert (H3 : user (st Example.drafted) = Some Example.u1)
    by (vm_compute; reflexivity).
  assert (H4 : trim (newMessage (st Example.drafted)) ≠ [])
    by (vm_compute; discriminate).
  destruct (C1_submit_appends_one_message Example.env Example.drafted _ _
              H1 H2 H3 H4) as (fields & Hadd & _ & _ & _ & _ & _ & _ & _ & Hack & _).
  split; [exact H1|]. split; [exact H4|]. split; [|exact Hack].
  rewrite Hadd. vm_compute. reflexivity.
Defined.

Lemma C3_witness :
  Forall (λ c, is_whitespace c = true) (newMessage (st Example.blank))
  ∧ step Example.env ESubmit Example.blank = Example.blank.
Proof.
  assert (H : Forall (λ c, is_whitespace c = true) (newMessage (st Example.blank))).
  { vm_compute. repeat constructor. }
  split; [exact H|].
  apply (C3_rejected_submit_is_silent_noop Example.env Example.blank).
  left. exact H.
Defined.

Lemma C4_witness :
  awaiting (rt Example.submitted) !! 3%nat = Some KAddDoc
  ∧ newMessage (st (step Example.env
                      (ESettled 3%nat (inl Example.permissionDenied))
                      Example.submitted)) = lit " hello "
  ∧ messages (st (step Example.env
                    (ESettled 3%nat (inl Example.permissionDenied))
                    Example.submitted)) = [].
Proof.
  assert (H : awaiting (rt Example.submitted) !! 3%nat = Some KAddDoc)
    by (vm_compute; reflexivity).
  destruct (C4_rejected_append_keeps_draft Example.env Example.submitted 3%nat
              Example.permissionDenied H) as (_ & Hn & Hm & _).
  split; [exact H|]. split.
  - rewrite Hn. vm_compute. reflexivity.
  - rewrite Hm. vm_compute. reflexivity.
Defined.

Lemma C2_witness :
  is_Some (snapshotListeners (world Example.signedIn) !! 2%nat)
  ∧ messages (st (step Example.env (ESnapshot 2%nat [Example.m1]) Example.signedIn))
    = [fetchedMessage Example.m1].
Proof.
  assert (H : is_Some (snapshotListeners (world Example.signedIn) !! 2%nat)).
  { vm_compute. eexists. reflexivity. }
  split; [exact H|].
  destruct (C2_messages_mirror_last_snapshot Example.env
              [EMount; EAuthStateChanged 0%nat (Some Example.u1)])
    as (_ & Hstep & _).
  exact (Hstep 2%nat [Example.m1] H).
Defined.

Lemma C5_witness :
  lifecycle (rt Example.signedIn) = Mounted
  ∧ snapshotListeners (world Example.signedIn) ≠ ∅
  ∧ snapshotListeners
      (world (step Example.env (EAuthStateChanged 0%nat None) Example.signedIn)) = ∅.
Proof.
  assert (H : lifecycle (rt Example.signedIn) = Mounted) by (vm_compute; reflexivity).
  destruct (C5_feed_open_iff_ready Example.env
              [EMount; EAuthStateChanged 0%nat (Some Example.u1)])
    as (Hiff & _ & _ & Hout & _).
  split; [exact H|]. split.
  - apply (Hiff H). vm_compute. repeat split; eexists; reflexivity.
  - apply Hout. vm_compute. reflexivity.
Defined.

Lemma C6_witness :
  is_Some (snapshotListeners (world Example.signedIn) !! 2%nat)
  ∧ snapshotListeners (world (step Example.env EUnmount Example.signedIn)) !! 2%nat
    = None
  ∧ step Example.env (ESnapshot 2%nat [Example.m1])
      (step Example.env EUnmount Example.signedIn)
    = step Example.env EUnmount Example.signedIn.
Proof.
  assert (H1 : is_Some (snapshotListeners (world Example.signedIn) !! 2%nat)).
  { vm_compute. eexists. reflexivity. }
  assert (H2 : snapshotListeners
                 (world (step Example.env EUnmount Example.signedIn)) !! 2%nat = None)
    by (vm_compute; reflexivity).
  destruct (C6_snapshot_after_unsubscribe_is_noop Example.env
              [EMount; EAuthStateChanged 0%nat (Some Example.u1)] 2%nat EUnmount
              H1 H2) as [Hnoop _].
  split; [exact H1|]. split; [exact H2|].
  exact (proj1 (Hnoop [] [Example.m1])).
Defined.


Lemma C8_witness :
  isAuthReady (st Example.twoMessages) = true
  ∧ messages (st Example.twoMessages) ≠ []
  ∧ Forall presentable (messages (st Example.twoMessages))
  ∧ ∃ bs, App Example.env (st Example.twoMessages) =
            inr (ChatView (userIdText (user (st Example.twoMessages))) (inr bs)
                   (newMessage (st Example.twoMessages)))
          ∧ Forall2 (shown Example.env (user (st Example.twoMessages)))
              (messages (st Example.twoMessages)) bs
          ∧ label <$> bs = [lit "You"; lit "User: abcdefgh..."]
          ∧ rowClass <$> bs = [lit "flex justify-end"; lit "flex justify-start"].
Proof.
  assert (H : isAuthReady (st Example.twoMessages) = true) by (vm_compute; reflexivity).
  assert (Hm : messages (st Example.twoMessages) =
               [fetchedMessage Example.m1; fetchedMessage Example.foreign])
    by (vm_compute; reflexivity).
  assert (Hne : messages (st Example.twoMessages) ≠ []) by (rewrite Hm; discriminate).
  assert (Hall : Forall presentable (messages (st Example.twoMessages))).
  { rewrite Hm. constructor; [|constructor; [|constructor]].
    - split; [exists (lit "u1"); vm_compute; reflexivity|].
      split; [right; exists 1000%Z; vm_compute; reflexivity|].
      vm_compute. reflexivity.
    - split; [exists (lit "abcdefghijkl"); vm_compute; reflexivity|].
      split; [left; vm_compute; reflexivity|].
      vm_compute. reflexivity. }
  destruct (C8_own_and_foreign_bubbles Example.env (st Example.twoMessages) H)
    as (_ & _ & Hshow & _).
  destruct (Hshow Hne Hall) as (bs & HA & Hsh).
  split; [exact H|]. split; [exact Hne|]. split; [exact Hall|].
  exists bs. split; [exact HA|]. split; [exact Hsh|].
  assert (Heq : App Example.env (st Example.twoMessages) =
                inr (ChatView (userIdText (user (st Example.twoMessages))) (inr bs)
                       (newMessage (st Example.twoMessages)))) by exact HA.
  vm_compute in Heq. injection Heq as <-. split; vm_compute; reflexivity.
Defined.

Lemma C9_witness :
  isAuthReady (st Example.signedIn) = true
  ∧ isAuthReady (st (run Example.env [EAuthStateChanged 0%nat None]
                       Example.signedIn)) = true.
Proof.
  assert (H : isAuthReady (st Example.signedIn) = true) by (vm_compute; reflexivity).
  destruct (C9_auth_readiness_is_monotone Example.env
              [EMount; EAuthStateChanged 0%nat (Some Example.u1)]
              [EAuthStateChanged 0%nat None] 0%nat None) as (_ & _ & Hmono & _).
  split; [exact H|]. exact (proj1 (Hmono H)).
Defined.

Lemma C10_witness :
  (∃ error,
     crashed (rt (tick Example.env [ESnapshot 2%nat [Example.anonymous]]
                    (runTicks Example.env Example.signIn initialSys))) = Some error
     ∧ lifecycle (rt (tick Example.env [ESnapshot 2%nat [Example.anonymous]]
                        (runTicks Example.env Example.signIn initialSys))) = Unmounted)
  ∧ ∃ bs, App Example.env
            (st (run Example.env [ESnapshot 2%nat [Example.undated]] Example.signedIn)) =
            inr (ChatView (lit "u1") (inr bs) [])
          ∧ time <$> bs = [None].
Proof.
  destruct (C10_label_needs_sender_unless_signed_out Example.env)
    as (Hundated & _ & _ & _ & Hthrow & _).
  split.
  - apply (Hthrow Example.signIn [ESnapshot 2%nat [Example.anonymous]] Example.u1
             (fetchedMessage Example.anonymous)).
    + vm_compute. reflexivity.
    + vm_compute. reflexivity.
    + vm_compute. reflexivity.
    + assert (Hm : messages (st (dispatchAll Example.env
                                   [ESnapshot 2%nat [Example.anonymous]]
                                   (runTicks Example.env Example.signIn initialSys))) =
                   [fetchedMessage Example.anonymous]) by (vm_compute; reflexivity).
      rewrite Hm. constructor.
    + vm_compute. reflexivity.
  - assert (Hm : messages (st (run Example.env [ESnapshot 2%nat [Example.undated]]
                                 Example.signedIn)) =
                 [fetchedMessage Example.undated]) by (vm_compute; reflexivity).
    destruct (Hundated (st (run Example.env [ESnapshot 2%nat [Example.undated]]
                              Example.signedIn))) as (bs & HA & Ht).
    + vm_compute. reflexivity.
    + rewrite Hm. discriminate.
    + rewrite Hm. constructor; [|constructor].
      split; [exists (lit "u2"); vm_compute; reflexivity|].
      split; [left; vm_compute; reflexivity|].
      vm_compute. reflexivity.
    + exists bs. split; [exact HA|].
      rewrite Hm in Ht. inversion Ht as [|msg b msgs bs' Htime Hrest]; subst.
      inversion Hrest; subst. cbn. f_equal. apply Htime. vm_compute. reflexivity.
Defined.

(** * Further properties of the component *)

Lemma commit_noop (env : Env) (s : Sys) :
  feedDeps (rt s) = Some (feedDepsOf (st s)) → (commit env s).2 = s.
Proof. intros H. munfold. rewrite decide_True by done. by destruct s. Qed.

(** A callback followed by a render that succeeds and finds the
    dependencies of the feed effect unchanged. *)
Lemma step_rerender (env : Env) (e : event) (s s1 : Sys) :
  dispatch env e s = (inr (), s1) →
  (∃ v, App env (st s1) = inr v) →
  feedDeps (rt s1) = Some (feedDepsOf (st s1)) →
  step env e s = s1.
Proof.
  intros Hd [v Hv] Hdeps. unfold step. rewrite Hd.
  destruct (decide _); [|done]. rewrite Hv. by apply commit_noop.
Qed.

Lemma App_newMessage (env : Env) (a : AppState) (v : jsstring) :
  App env {| messages := messages a; newMessage := v; user := user a;
             db := db a; auth := auth a; isAuthReady := isAuthReady a |} =
    match App env a with
    | inl e => inl e
    | inr (LoadingView c) => inr (LoadingView c)
    | inr (ChatView line area _) => inr (ChatView line area v)
    end.
Proof.
  unfold App. cbn. destruct (isAuthReady a); cbn; [|done].
  destruct (messages a); [done|]. destruct (renderMessages _ _ _); [done|].
  by destruct (checkChildren _).
Qed.

(** X1. Typing into the input replaces the draft and nothing else: the
    message list, the identity, the feed listener and the requests are
    untouched, and the render that follows succeeds. *)
Theorem typing_only_changes_draft (env : Env) (tr : list event) (v : jsstring) :
  let s := run env tr initialSys in
  formShown s = true →
  step env (EChange v) s =
    {| st := {| messages := messages (st s); newMessage := v; user := user (st s);
                db := db (st s); auth := auth (st s);
                isAuthReady := isAuthReady (st s) |};
       rt := rt s; world := world s |}
  ∧ ∃ line area, App env (st (step env (EChange v) s)) = inr (ChatView line area v).
Proof.
  intros s Hform.
  assert (HI : Inv env s) by apply Inv_run, Inv_initial.
  pose proof Hform as Hf.
  apply andb_prop in Hf as [Hm%bool_decide_eq_true Hr].
  destruct (proj2 HI Hm) as [Hdeps [v0 Hv0]].
  assert (HA : ∃ line area,
            App env {| messages := messages (st s); newMessage := v;
                       user := user (st s); db := db (st s); auth := auth (st s);
                       isAuthReady := isAuthReady (st s) |}
            = inr (ChatView line area v)).
  { rewrite App_newMessage, Hv0. destruct v0 as [c|line area i]; [|by eauto].
    assert (isAuthReady (st s) = false); [|congruence].
    apply (loading_iff env). eauto. }
  assert (Hs : step env (EChange v) s =
    {| st := {| messages := messages (st s); newMessage := v; user := user (st s);
                db := db (st s); auth := auth (st s);
                isAuthReady := isAuthReady (st s) |};
       rt := rt s; world := world s |}).
  { apply step_rerender.
    - munfold. rewrite Hform. cbn. rewrite Hm. by simpl.
    - destruct HA as (line & area & HA). cbn. eauto.
    - done. }
  split; [done|]. by rewrite Hs.
Qed.

(** The system right after an accepted submit: one more append request and
    one more suspended handler. *)
Lemma submit_accepted (env : Env) (s : Sys) (d : Firestore) (u : User) :
  formShown s = true → db (st s) = Some d → user (st s) = Some u →
  trim (newMessage (st s)) ≠ [] →
  step env ESubmit s =
    {| st := st s;
       rt := {| lifecycle := lifecycle (rt s); crashed := crashed (rt s);
                uncaught := uncaught (rt s); authCleanup := authCleanup (rt s);
                feedDeps := feedDeps (rt s); feedCleanup := feedCleanup (rt s);
                awaiting := <[next_handle (world s) := KAddDoc]> (awaiting (rt s)) |};
       world := {| next_handle := S (next_handle (world s));
                   authObservers := authObservers (world s);
                   snapshotListeners := snapshotListeners (world s);
                   signIns := signIns (world s);
                   addDocs := addDocs (world s) ++
                     [{| add_ref := collection d (messagesPath env);
                         add_fields := messageFields (st s) u |}];
                   console := console (world s) |} |}.
Proof.
  intros Hform Hdb Hu Htrim. apply step_same_state; [|done].
  munfold. rewrite Hform, Hdb, Hu.
  rewrite bool_decide_eq_false_2 by done. reflexivity.
Qed.

(** X2. The submit handler has no in-flight guard: submitting twice before
    the first append is acknowledged issues two identical append requests. *)
Theorem double_submit_appends_twice
    (env : Env) (s : Sys) (d : Firestore) (u : User) :
  formShown s = true → db (st s) = Some d → user (st s) = Some u →
  trim (newMessage (st s)) ≠ [] →
  addDocs (world (run env [ESubmit; ESubmit] s)) =
    addDocs (world s) ++
      [{| add_ref := collection d (messagesPath env);
          add_fields := messageFields (st s) u |};
       {| add_ref := collection d (messagesPath env);
          add_fields := messageFields (st s) u |}]
  ∧ st (run env [ESubmit; ESubmit] s) = st s
  ∧ awaiting (rt (run env [ESubmit; ESubmit] s)) !! next_handle (world s)
    = Some KAddDoc
  ∧ awaiting (rt (run env [ESubmit; ESubmit] s)) !! S (next_handle (world s))
    = Some KAddDoc.
Proof.
  intros Hform Hdb Hu Htrim. cbn.
  rewrite (submit_accepted env s d u) by done.
  rewrite (submit_accepted env _ d u) by done. cbn.
  rewrite <- app_assoc. split_and!; [done|done| |].
  - rewrite lookup_insert_ne by lia. apply lookup_insert_eq.
  - apply lookup_insert_eq.
Qed.

(** ** What the callbacks do to the requests *)

Ltac eff_fin :=
  split; [naive_solver | split; [done | split; [done | by left]]].

Lemma dispatch_effects (env : Env) (e : event) (s : Sys) :
  Inv env s →
  let s1 := (dispatch env e s).2 in
  (lifecycle (rt s1) = Initial ↔
     lifecycle (rt s) = Initial ∧ match e with EMount => False | _ => True end)
  ∧ signIns (world s1) =
      signIns (world s) ++
        match e with
        | EMount =>
            if decide (lifecycle (rt s) = Initial) then
              match bootstrap env with
              | inr (_, a) => [chosenSignIn env a]
              | inl _ => []
              end
            else []
        | _ => []
        end
  ∧ db (st s1) =
      match e with
      | EMount =>
          if decide (lifecycle (rt s) = Initial) then
            match bootstrap env with
            | inr (d, _) => Some d
            | inl _ => db (st s)
            end
          else db (st s)
      | _ => db (st s)
      end
  ∧ (addDocs (world s1) = addDocs (world s)
     ∨ ∃ d u,
         match e with ESubmit => True | _ => False end
         ∧ formShown s = true ∧ db (st s) = Some d ∧ user (st s) = Some u
         ∧ trim (newMessage (st s)) ≠ []
         ∧ addDocs (world s1) =
             addDocs (world s) ++
               [{| add_ref := collection d (messagesPath env);
                   add_fields := messageFields (st s) u |}]).
Proof.
  intros HI. pose proof (pre_initial _ _ (proj1 HI)) as Hi.
  destruct e; destruct_sys s; unfold bootstrap, chosenSignIn; munfold; cbn.
  - destruct (decide _) as [Hl|Hl]; cbn;
      [|rewrite app_nil_r; eff_fin].
    rewrite (Hi Hl). cbn.
    destruct (initializeApp env (firebaseConfig env)) as [e1|app]; cbn;
      [|destruct (getFirestore env app) as [e1|d]; cbn;
        [|destruct (getAuth env app) as [e1|au]; cbn;
          [|destruct (initialAuthToken env) as [[|c tok]|]; simpl]]].
    all: rewrite ?app_nil_r; eff_fin.
  - rewrite app_nil_r. destruct (decide _); cbn.
    + destruct ac, fc; cbn; eff_fin.
    + eff_fin.
  - rewrite app_nil_r.
    repeat (case_decide; simpl); eff_fin.
  - rewrite app_nil_r. destruct (aw !! p) as [[]|]; cbn;
      [destruct outcome as [?|[]]; cbn; repeat (case_decide; simpl)
      |destruct outcome as [?|[]]; cbn; repeat (case_decide; simpl)|];
      eff_fin.
  - rewrite app_nil_r.
    repeat (case_decide; simpl); eff_fin.
  - rewrite app_nil_r. destruct (decide _); cbn;
      eff_fin.
  - rewrite app_nil_r. destruct (formShown _); cbn;
      repeat (case_decide; simpl); eff_fin.
  - rewrite app_nil_r. destruct (formShown _) eqn:Hform; cbn;
      [|eff_fin].
    destruct (bool_decide_reflect (trim (newMessage a) = [])) as [Ht|Ht];
      destruct (db a) as [d|] eqn:Hdb, (user a) as [u|] eqn:Hu; cbn;
      (split; [naive_solver|split; [done|split; [done|]]]); try by left.
    right. by exists d, u.
Qed.

(** Rendering, committing and crashing issue no request and keep the state
    cells. *)
Lemma commit_requests (env : Env) (s : Sys) :
  signIns (world (commit env s).2) = signIns (world s)
  ∧ addDocs (world (commit env s).2) = addDocs (world s)
  ∧ lifecycle (rt (commit env s).2) = lifecycle (rt s).
Proof.
  destruct_sys s. munfold. cbn. destruct (decide _); cbn; [done|].
  by destruct fc, (db a), (user a), (isAuthReady a).
Qed.

Lemma crash_requests (error : exn) (s : Sys) :
  signIns (world (crash error s).2) = signIns (world s)
  ∧ addDocs (world (crash error s).2) = addDocs (world s)
  ∧ lifecycle (rt (crash error s).2) = Unmounted.
Proof. destruct_sys s. munfold. cbn. by destruct ac, fc. Qed.

Lemma step_requests (env : Env) (e : event) (s : Sys) :
  Inv env s →
  signIns (world (step env e s)) = signIns (world (dispatch env e s).2)
  ∧ addDocs (world (step env e s)) = addDocs (world (dispatch env e s).2)
  ∧ (lifecycle (rt (step env e s)) = Initial
     ↔ lifecycle (rt (dispatch env e s).2) = Initial).
Proof.
  intros HI. pose proof (proj1 (Pre_dispatch env e s HI)) as Hok.
  unfold step. destruct (dispatch env e s) as [r s1]. cbn [fst snd] in *. subst r.
  destruct (decide _) as [[Hm _]|_]; [|done].
  destruct (App env (st s1)).
  - destruct (crash_requests e0 s1) as (-> & -> & ->). rewrite Hm. naive_solver.
  - destruct (commit_requests env s1) as (-> & -> & ->). done.
Qed.

Lemma step_effects (env : Env) (e : event) (s : Sys) :
  Inv env s →
  let s1 := step env e s in
  (lifecycle (rt s1) = Initial ↔
     lifecycle (rt s) = Initial ∧ match e with EMount => False | _ => True end)
  ∧ signIns (world s1) =
      signIns (world s) ++
        match e with
        | EMount =>
            if decide (lifecycle (rt s) = Initial) then
              match bootstrap env with
              | inr (_, a) => [chosenSignIn env a]
              | inl _ => []
              end
            else []
        | _ => []
        end
  ∧ db (st s1) =
      match e with
      | EMount =>
          if decide (lifecycle (rt s) = Initial) then
            match bootstrap env with
            | inr (d, _) => Some d
            | inl _ => db (st s)
            end
          else db (st s)
      | _ => db (st s)
      end
  ∧ (addDocs (world s1) = addDocs (world s)
     ∨ ∃ d u,
         match e with ESubmit => True | _ => False end
         ∧ formShown s = true ∧ db (st s) = Some d ∧ user (st s) = Some u
         ∧ trim (newMessage (st s)) ≠ []
         ∧ addDocs (world s1) =
             addDocs (world s) ++
               [{| add_ref := collection d (messagesPath env);
                   add_fields := messageFields (st s) u |}]).
Proof.
  intros HI s1. subst s1.
  destruct (step_requests env e s HI) as (-> & -> & ->).
  rewrite step_st. by apply dispatch_effects.
Qed.

(** ** Requests over a whole session *)

(** X3. Over a whole session the component asks to sign in at most once:
    never before it is mounted or when the bootstrap threw, otherwise
    exactly once, with the custom token when it is a non-empty string and
    anonymously when it is absent or empty. Nothing retries the sign-in. *)
Theorem sign_in_requested_once (env : Env) (tr : list event) :
  let s := run env tr initialSys in
  signIns (world s) =
    (if decide (lifecycle (rt s) = Initial) then []
     else match bootstrap env with
          | inr (_, a) =>
              [match initialAuthToken env with
               | Some (c :: tok) => signInWithCustomToken a (c :: tok)
               | Some [] | None => signInAnonymously a
               end]
          | inl _ => []
          end).
Proof.
  cbv zeta. induction tr as [|e tr IH] using rev_ind; [done|].
  unfold run in *. rewrite foldl_app. cbn [foldl flip].
  set (s := foldl (flip (step env)) initialSys tr) in *.
  assert (HI : Inv env s) by apply Inv_run, Inv_initial.
  destruct (step_effects env e s HI) as (Hl & Hs & _). rewrite Hs, IH. clear Hs IH.
  destruct (decide (lifecycle (rt s) = Initial)) as [Hi|Hi].
  - destruct e; cbn; rewrite ?decide_True by done.
    + rewrite decide_False by naive_solver. unfold chosenSignIn.
      destruct (bootstrap env) as [|[]]; [done|].
      by destruct (initialAuthToken env) as [[]|].
    + by rewrite decide_True by naive_solver.
    + by rewrite decide_True by naive_solver.
    + by rewrite decide_True by naive_solver.
    + by rewrite decide_True by naive_solver.
    + by rewrite decide_True by naive_solver.
    + by rewrite decide_True by naive_solver.
    + by rewrite decide_True by naive_solver.
  - rewrite (decide_False (P := lifecycle (rt (step env e s)) = Initial))
      by naive_solver.
    destruct e; cbn; rewrite ?decide_False by done; by rewrite app_nil_r.
Qed.

Lemma appends_invariant (env : Env) (tr : list event) :
  let s := run env tr initialSys in
  (lifecycle (rt s) = Initial → addDocs (world s) = [])
  ∧ Forall (λ c, wellFormedAppend env c
                 ∧ db (st s) = Some (coll_db (add_ref c)))
      (addDocs (world s)).
Proof.
  cbv zeta. induction tr as [|e tr IH] using rev_ind; [by split|].
  unfold run in *. rewrite foldl_app. cbn [foldl flip].
  set (s := foldl (flip (step env)) initialSys tr) in *.
  assert (HI : Inv env s) by apply Inv_run, Inv_initial.
  destruct IH as [Hinit Hall].
  destruct (step_effects env e s HI) as (Hl & _ & Hdb & Hadd).
  destruct Hadd as [Hsame|(d & u & He & Hform & Hd & Hu & Htrim & Happ)].
  - rewrite Hsame. split; [intros Hi; apply Hinit; naive_solver|].
    destruct (decide (lifecycle (rt s) = Initial)) as [Hi|Hi].
    + rewrite (Hinit Hi). constructor.
    + assert (Hdb' : db (st (step env e s)) = db (st s)).
      { rewrite Hdb. destruct e; try done; by rewrite decide_False. }
      by rewrite Hdb'.
  - destruct e; try done. rewrite Happ. split.
    + intros Hi. apply Hl in Hi as [Hi _].
      apply andb_prop in Hform as [Hm%bool_decide_eq_true _]. congruence.
    + rewrite Hdb. apply Forall_app. split; [done|].
      constructor; [|constructor]. split; [|done].
      split; [done|]. by exists (newMessage (st s)), (uid u).
Qed.

(** X4. Every append request the component ever issues is addressed to
    the messages collection of its own database handle and carries exactly
    a non-blank [text], a [userId] and the server-timestamp sentinel: a
    blank message is never sent. *)
Theorem every_append_is_well_formed (env : Env) (tr : list event) :
  let s := run env tr initialSys in
  Forall (λ c, wellFormedAppend env c ∧ db (st s) = Some (coll_db (add_ref c)))
    (addDocs (world s)).
Proof. apply appends_invariant. Qed.

(** ** The feed listener and the database handle *)

Ltac sub_fin :=
  simpl; intros ? ? Hq;
  repeat first [ apply lookup_delete_Some in Hq as [_ Hq]
               | apply lookup_insert_Some in Hq as [[<- <-]|[_ Hq]] ];
  first [ done | by left | by right ].

Lemma dispatch_listeners (env : Env) (e : event) (s : Sys) :
  Inv env s →
  ∀ h q, snapshotListeners (world (dispatch env e s).2) !! h = Some q →
         snapshotListeners (world s) !! h = Some q.
Proof.
  intros HI. pose proof (pre_initial _ _ (proj1 HI)) as Hi.
  destruct e; destruct_sys s; munfold; cbn.
  - destruct (decide _) as [Hl|Hl]; cbn; [|done].
    rewrite (Hi Hl). cbn.
    destruct (initializeApp env (firebaseConfig env)) as [e1|app]; cbn;
      [|destruct (getFirestore env app) as [e1|d]; cbn;
        [|destruct (getAuth env app) as [e1|au]; cbn;
          [|destruct (initialAuthToken env) as [[|c tok]|]; cbn]]]; sub_fin.
  - destruct (decide _); cbn; [|done]. destruct ac, fc; sub_fin.
  - repeat (case_decide; simpl); sub_fin.
  - destruct (aw !! p) as [[]|]; cbn; [| |done];
      destruct outcome as [?|[]]; cbn; repeat (case_decide; simpl); sub_fin.
  - repeat (case_decide; simpl); sub_fin.
  - destruct (decide _); sub_fin.
  - destruct (formShown _); cbn; [|done]. repeat (case_decide; simpl); sub_fin.
  - destruct (formShown _); cbn; [|done].
    destruct (bool_decide _), (db a), (user a); sub_fin.
Qed.

Lemma commit_listeners (env : Env) (s : Sys) :
  ∀ h q, snapshotListeners (world (commit env s).2) !! h = Some q →
         snapshotListeners (world s) !! h = Some q
         ∨ db (st s) = Some (coll_db (q_ref q)).
Proof.
  destruct_sys s. munfold. cbn. destruct (decide _); cbn; [by left|].
  destruct fc, (db a), (user a), (isAuthReady a); sub_fin.
Qed.

Lemma crash_listeners (error : exn) (s : Sys) :
  ∀ h q, snapshotListeners (world (crash error s).2) !! h = Some q →
         snapshotListeners (world s) !! h = Some q.
Proof. destruct_sys s. munfold. cbn. destruct ac, fc; sub_fin. Qed.

Lemma listener_db (env : Env) (tr : list event) :
  let s := run env tr initialSys in
  ∀ h q, snapshotListeners (world s) !! h = Some q →
         db (st s) = Some (coll_db (q_ref q)).
Proof.
  cbv zeta. induction tr as [|e tr IH] using rev_ind; [done|].
  unfold run in *. rewrite foldl_app. cbn [foldl flip].
  set (s := foldl (flip (step env)) initialSys tr) in *.
  assert (HI : Inv env s) by apply Inv_run, Inv_initial.
  intros h q Hq.
  assert (Hold : snapshotListeners (world s) !! h = Some q →
                 db (st (step env e s)) = Some (coll_db (q_ref q))).
  { intros Hq'. destruct (step_effects env e s HI) as (_ & _ & -> & _).
    destruct (live_listener env s h HI) as (_ & Hm & _); [by eauto|].
    destruct e; try apply (IH h q Hq').
    rewrite decide_False by congruence. apply (IH h q Hq'). }
  pose proof (dispatch_listeners env e s HI) as Hsub.
  rewrite step_st. revert Hq. unfold step.
  destruct (dispatch env e s) as [[error|[]] s1] eqn:Hd; cbn [fst snd] in *.
  - intros Hq%Hsub%Hold. by rewrite step_st, Hd in Hq.
  - destruct (decide _).
    + destruct (App env (st s1)).
      * intros Hq%crash_listeners%Hsub%Hold. by rewrite step_st, Hd in Hq.
      * intros [Hq%Hsub%Hold|Hq]%commit_listeners; [|done].
        by rewrite step_st, Hd in Hq.
    + intros Hq%Hsub%Hold. by rewrite step_st, Hd in Hq.
Qed.

(** X5. Sending and listening agree: whenever a feed listener is
    registered, it is on the collection of the current database handle,
    and an accepted submit addresses its append request to that same
    collection. *)
Theorem send_goes_to_the_subscribed_collection
    (env : Env) (tr : list event) (h : nat) (q : Query) :
  let s := run env tr initialSys in
  snapshotListeners (world s) !! h = Some q →
  trim (newMessage (st s)) ≠ [] →
  ∃ c, addDocs (world (step env ESubmit s)) = addDocs (world s) ++ [c]
       ∧ add_ref c = q_ref q
       ∧ q = query_orderBy (collection (coll_db (add_ref c)) (messagesPath env))
               "timestamp" asc.
Proof.
  intros s Hq Htrim.
  assert (HI : Inv env s) by apply Inv_run, Inv_initial.
  destruct (live_listener env s h HI) as (_ & Hm & _ & [u Hu] & Hr); [by eauto|].
  pose proof (listener_db env tr h q Hq) as Hdb. fold s in Hdb.
  destruct (pre_query _ _ (proj1 HI) h q Hq) as (Hf & Hdir & Hpath).
  assert (Hform : formShown s = true).
  { unfold formShown. by rewrite bool_decide_eq_true_2, Hr. }
  rewrite (submit_accepted env s _ u Hform Hdb Hu Htrim). cbn.
  eexists. split; [done|]. cbn.
  destruct q as [[d p] f dir]. cbn in *. by subst.
Qed.

(** ** After unmounting *)

Lemma dispatch_unmounted (env : Env) (e : event) (s : Sys) :
  lifecycle (rt s) = Unmounted →
  (dispatch env e s).1 = inr ()
  ∧ st (dispatch env e s).2 = st s
  ∧ lifecycle (rt (dispatch env e s).2) = Unmounted.
Proof.
  intros Hl. destruct_sys s. subst lc. destruct e; munfold; cbn; try done.
  - by destruct (decide _).
  - destruct (aw !! p) as [[]|]; cbn; [| |done]; by destruct outcome as [?|[]].
  - by destruct (decide _).
  - by destruct (decide _).
Qed.

Lemma step_unmounted (env : Env) (e : event) (s : Sys) :
  lifecycle (rt s) = Unmounted →
  st (step env e s) = st s ∧ lifecycle (rt (step env e s)) = Unmounted.
Proof.
  intros Hl. destruct (dispatch_unmounted env e s Hl) as (Hr & Hst & Hl1).
  unfold step. destruct (dispatch env e s) as [r s1]. cbn [fst snd] in *. subst r.
  destruct (decide _) as [[Hm _]|_]; [congruence|done].
Qed.

(** X6. Unmounting a mounted component releases both the auth observer
    and the feed listener, and from then on, whatever happens, no listener
    is registered again, the state cells stay as they were and no sign-in
    or append request is issued. *)
Theorem unmount_releases_everything (env : Env) (tr tr' : list event) :
  let s0 := run env tr initialSys in
  lifecycle (rt s0) = Mounted →
  let s := run env tr' (step env EUnmount s0) in
  lifecycle (rt s) = Unmounted
  ∧ authObservers (world s) = ∅
  ∧ snapshotListeners (world s) = ∅
  ∧ st s = st s0
  ∧ signIns (world s) = signIns (world s0)
  ∧ addDocs (world s) = addDocs (world s0).
Proof.
  intros s0 Hm.
  assert (HI0 : Inv env s0) by apply Inv_run, Inv_initial.
  set (s1 := step env EUnmount s0).
  assert (HI1 : Inv env s1) by apply Inv_step, HI0.
  assert (H1 : lifecycle (rt s1) = Unmounted ∧ st s1 = st s0
               ∧ signIns (world s1) = signIns (world s0)
               ∧ addDocs (world s1) = addDocs (world s0)).
  { destruct (step_effects env EUnmount s0 HI0) as (Hl & Hs & _ & Ha).
    fold s1 in Hl, Hs, Ha. rewrite app_nil_r in Hs.
    split_and!.
    - pose proof (unmount_step env s0) as Hn. fold s1 in Hn.
      destruct (lifecycle (rt s1)); [|done|done].
      destruct Hl as [Hl _]. destruct (Hl eq_refl). congruence.
    - unfold s1. rewrite step_st. munfold. rewrite decide_True by done.
      by destruct (authCleanup (rt s0)), (feedCleanup (rt s0)).
    - done.
    - by destruct Ha as [?|(? & ? & [] & _)]. }
  destruct H1 as (Hl1 & <- & <- & <-). clearbody s1. clear HI0 Hm s0.
  cbv zeta. revert s1 HI1 Hl1.
  induction tr' as [|e tr' IH]; intros s1 HI1 Hl1.
  - cbn. destruct (pre_unmounted _ _ (proj1 HI1)) as [Hf Ha]; [congruence|].
    split_and!; try done.
    + by rewrite (pre_auth _ _ (proj1 HI1)), Ha.
    + by apply (listeners_empty_iff env).
  - change (run env (e :: tr') s1) with (run env tr' (step env e s1)).
    destruct (step_unmounted env e s1 Hl1) as [Hst Hl].
    destruct (step_effects env e s1 HI1) as (_ & Hs & _ & Ha).
    destruct (IH (step env e s1)) as (? & ? & ? & ? & ? & ?);
      [by apply Inv_step|done|].
    split_and!; try done.
    + congruence.
    + destruct e; rewrite ?decide_False in Hs by congruence;
        rewrite app_nil_r in Hs; congruence.
    + destruct Ha as [?|(? & ? & _ & Hform & _)]; [congruence|].
      apply andb_prop in Hform as [Hm%bool_decide_eq_true _]. congruence.
Qed.

(** ** A change of identity *)

Lemma step_commits (env : Env) (e : event) (s s1 : Sys) (v : View) :
  dispatch env e s = (inr (), s1) → lifecycle (rt s1) = Mounted →
  st s1 ≠ st s → App env (st s1) = inr v →
  step env e s = (commit env s1).2.
Proof.
  intros Hd Hm Hne Hv. unfold step. rewrite Hd.
  rewrite decide_True by done. by rewrite Hv.
Qed.

Lemma auth_callback (env : Env) (s : Sys) (h : nat) (u : option User) :
  lifecycle (rt s) = Mounted → h ∈ authObservers (world s) →
  dispatch env (EAuthStateChanged h u) s =
    (inr (),
     {| st := {| messages := messages (st s); newMessage := newMessage (st s);
                 user := u; db := db (st s); auth := auth (st s);
                 isAuthReady := true |};
        rt := rt s; world := world s |}).
Proof.
  intros Hm Hh. destruct_sys s. subst lc. munfold.
  rewrite decide_True by done. by simpl.
Qed.

Lemma renderMessage_as (env : Env) (u : User) (u' : option User)
    (msg : jsobject) (b : Bubble) :
  renderMessage env (Some u) msg = inr b →
  ∃ b', renderMessage env u' msg = inr b'
        ∧ body b' = body b
        ∧ (u' = None → rowClass b' = lit "flex justify-start"
                       ∧ label b' ≠ lit "You").
Proof.
  intros Hb. destruct (rendered_has_sender env u msg b Hb) as [sender Hs].
  destruct (renderMessage_inr env _ _ _ Hb) as (_ & Ht & _ & Hbody & _).
  unfold renderMessage, renderLabel. rewrite Ht, Hs.
  destruct (isOwn msg u') eqn:Hown;
    (eexists; split; [done|]; split; [by rewrite Hbody|]); intros ->.
  - unfold isOwn in Hown. by rewrite Hs in Hown.
  - cbn. split; [done|]. by vm_compute.
Qed.

Lemma renderMessages_as (env : Env) (u : User) (u' : option User)
    (msgs : list jsobject) (bs : list Bubble) :
  renderMessages env (Some u) msgs = inr bs →
  ∃ bs', renderMessages env u' msgs = inr bs'
         ∧ body <$> bs' = body <$> bs
         ∧ (u' = None → Forall (λ b, rowClass b = lit "flex justify-start"
                                     ∧ label b ≠ lit "You") bs').
Proof.
  revert bs. induction msgs as [|msg msgs IH]; intros bs; cbn.
  - intros [= <-]. eexists. split; [done|]. split; [done|]. by constructor.
  - destruct (renderMessage env (Some u) msg) as [|b] eqn:Hb; [done|].
    destruct (renderMessages env (Some u) msgs) as [|bs0] eqn:Hbs; [done|].
    intros [= <-].
    destruct (renderMessage_as env u u' msg b Hb) as (b' & -> & Hbody & Hb').
    destruct (IH bs0 eq_refl) as (bs' & -> & Hbodies & Hbs').
    eexists. split; [done|]. split; [cbn; by rewrite Hbody, Hbodies|].
    intros Hu. constructor; auto.
Qed.

Lemma valid_bodies (bs bs' : list Bubble) :
  body <$> bs' = body <$> bs →
  Forall (λ b, from_option validChild true (body b) = true) bs →
  Forall (λ b, from_option validChild true (body b) = true) bs'.
Proof.
  intros Heq Hall.
  apply (Forall_fmap body (λ o, from_option validChild true o = true)).
  rewrite Heq.
  by apply (Forall_fmap body (λ o, from_option validChild true o = true)).
Qed.

(** A render that succeeds for one identity succeeds for any other. *)
Lemma App_as (env : Env) (a : AppState) (u : User) (u' : option User) (v : View) :
  isAuthReady a = true → user a = Some u → App env a = inr v →
  ∃ v', App env {| messages := messages a; newMessage := newMessage a;
                   user := u'; db := db a; auth := auth a; isAuthReady := true |}
          = inr v'
        ∧ (u' = None → messages a ≠ [] →
           ∃ bs, v' = ChatView (lit "N/A") (inr bs) (newMessage a)
                 ∧ length bs = length (messages a)
                 ∧ Forall (λ b, rowClass b = lit "flex justify-start"
                                ∧ label b ≠ lit "You") bs).
Proof.
  intros Hr Hu HA. apply App_chat_inr in HA; [|done].
  destruct (messages a) as [|m ms] eqn:Hm.
  - eexists. split; [by apply App_chat_inr|].
    by intros _ [].
  - destruct HA as (bs & Hbs & Hall & _). rewrite Hu in Hbs.
    destruct (renderMessages_as env u u' _ _ Hbs) as (bs' & Hbs' & Hbodies & Hout).
    eexists. split.
    + apply App_chat_inr; [done|]. cbn. exists bs'.
      split; [done|]. split; [by eapply valid_bodies|done].
    + intros -> _. exists bs'. split; [done|]. split; [|by apply Hout].
      apply renderMessages_inr, Forall2_length in Hbs'. done.
Qed.

Lemma commit_rt (env : Env) (s : Sys) :
  crashed (rt (commit env s).2) = crashed (rt s)
  ∧ lifecycle (rt (commit env s).2) = lifecycle (rt s)
  ∧ authObservers (world (commit env s).2) = authObservers (world s).
Proof.
  destruct_sys s. munfold. cbn. destruct (decide _); cbn; [done|].
  by destruct fc, (db a), (user a), (isAuthReady a).
Qed.

Lemma no_listener_without_identity (env : Env) (s : Sys) :
  Inv env s → user (st s) = None → snapshotListeners (world s) = ∅.
Proof.
  intros HI Hu.
  destruct (decide (snapshotListeners (world s) = ∅)) as [|Hne]; [done|].
  apply map_choose in Hne as (h & q & Hq).
  destruct (live_listener env s h HI) as (_ & _ & _ & [u Hu'] & _); eauto.
  congruence.
Qed.

(** X7. When the auth observer reports a different user object while the
    feed is open, the old listener is unsubscribed and a new one is
    registered under a handle never used before, on the same query; the
    message list is kept and the render does not throw. *)
Theorem identity_switch_resubscribes
    (env : Env) (tr : list event) (h h0 : nat) (u u' : User) :
  let s := run env tr initialSys in
  is_Some (snapshotListeners (world s) !! h) →
  h0 ∈ authObservers (world s) →
  user (st s) = Some u → user_ref u' ≠ user_ref u →
  let s' := step env (EAuthStateChanged h0 (Some u')) s in
  ∃ d, db (st s) = Some d
       ∧ snapshotListeners (world s') =
           {[ next_handle (world s) :=
                query_orderBy (collection d (messagesPath env)) "timestamp" asc ]}
       ∧ snapshotListeners (world s') !! h = None
       ∧ feedCleanup (rt s') = Some (next_handle (world s))
       ∧ user (st s') = Some u'
       ∧ messages (st s') = messages (st s)
       ∧ lifecycle (rt s') = Mounted
       ∧ crashed (rt s') = crashed (rt s).
Proof.
  intros s Hlive Hobs Hu Href s'.
  assert (HI : Inv env s) by apply Inv_run, Inv_initial.
  destruct (live_listener env s h HI Hlive) as (Hfc & Hm & [d Hd] & _ & Hr).
  destruct (proj2 HI Hm) as [Hdeps [v0 Hv0]].
  pose proof (pre_feed _ _ (proj1 HI)) as Hdom. rewrite Hfc in Hdom.
  pose proof (pre_fresh _ _ (proj1 HI) h Hlive) as Hlt.
  set (s1 := {| st := {| messages := messages (st s); newMessage := newMessage (st s);
                         user := Some u'; db := db (st s); auth := auth (st s);
                         isAuthReady := true |};
                rt := rt s; world := world s |}).
  assert (HA : ∃ v, App env (st s1) = inr v).
  { destruct (App_as env (st s) u (Some u') v0 Hr Hu Hv0) as (v & Hv & _). eauto. }
  destruct HA as [v Hv].
  assert (Hs' : s' = (commit env s1).2).
  { apply (step_commits env _ s s1 v); [by apply auth_callback|done| |done].
    cbn. intros Hst. apply (f_equal user) in Hst. cbn in Hst.
    rewrite Hu in Hst. congruence. }
  assert (Hempty : delete h (snapshotListeners (world s)) = ∅).
  { apply dom_empty_iff_L. rewrite dom_delete_L, Hdom. set_solver. }
  exists d. split; [done|]. rewrite Hs'. clear Hs' s'.
  unfold s1. destruct_sys s. subst lc fc. munfold. cbn in *.
  rewrite Hdeps, Hd. cbn.
  rewrite decide_False; cbn.
  2:{ unfold feedDepsOf. cbn. rewrite Hu. cbn. intros [=]. congruence. }
  rewrite Hempty. split_and!; try done.
  rewrite lookup_insert_ne by lia. done.
Qed.

(** X8. A sign-out keeps the message list on screen: the component stays
    mounted, the feed listener is closed, the list is unchanged, the header
    shows "N/A", and every bubble, including those the user wrote, is now
    left-aligned and labelled with a truncated sender id. *)
Theorem sign_out_keeps_stale_list
    (env : Env) (tr : list event) (h0 : nat) (u : User) :
  let s := run env tr initialSys in
  h0 ∈ authObservers (world s) →
  user (st s) = Some u →
  isAuthReady (st s) = true →
  let s' := step env (EAuthStateChanged h0 None) s in
  lifecycle (rt s') = Mounted
  ∧ crashed (rt s') = crashed (rt s)
  ∧ h0 ∈ authObservers (world s')
  ∧ snapshotListeners (world s') = ∅
  ∧ user (st s') = None
  ∧ messages (st s') = messages (st s)
  ∧ (messages (st s) ≠ [] →
     ∃ bs, App env (st s') =
             inr (ChatView (lit "N/A") (inr bs) (newMessage (st s)))
           ∧ length bs = length (messages (st s))
           ∧ Forall (λ b, rowClass b = lit "flex justify-start"
                          ∧ label b ≠ lit "You") bs).
Proof.
  intros s Hobs Hu Hr s'.
  assert (HI : Inv env s) by apply Inv_run, Inv_initial.
  pose proof (live_observer env s h0 HI Hobs) as Hm.
  destruct (proj2 HI Hm) as [Hdeps [v0 Hv0]].
  set (s1 := {| st := {| messages := messages (st s); newMessage := newMessage (st s);
                         user := None; db := db (st s); auth := auth (st s);
                         isAuthReady := true |};
                rt := rt s; world := world s |}).
  assert (HA : ∃ v, App env (st s1) = inr v
            ∧ (messages (st s) ≠ [] →
               ∃ bs, v = ChatView (lit "N/A") (inr bs) (newMessage (st s))
                     ∧ length bs = length (messages (st s))
                     ∧ Forall (λ b, rowClass b = lit "flex justify-start"
                                    ∧ label b ≠ lit "You") bs)).
  { destruct (App_as env (st s) u None v0 Hr Hu Hv0) as (v & Hv & Hview). eauto. }
  destruct HA as (v & Hv & Hview).
  assert (Hs' : s' = (commit env s1).2).
  { apply (step_commits env _ s s1 v); [by apply auth_callback|done| |done].
    cbn. intros Hst. apply (f_equal user) in Hst. cbn in Hst. congruence. }
  assert (HI' : Inv env s') by apply Inv_step, HI.
  assert (Hst : st s' = st s1) by (rewrite Hs'; apply commit_st).
  destruct (commit_rt env s1) as (Hcr & Hlc & Hao).
  split_and!.
  - by rewrite Hs', Hlc.
  - by rewrite Hs', Hcr.
  - by rewrite Hs', Hao.
  - apply (no_listener_without_identity env); [done|]. by rewrite Hst.
  - by rewrite Hst.
  - by rewrite Hst.
  - intros Hne. destruct (Hview Hne) as (bs & -> & Hlen & Hall).
    exists bs. by rewrite Hst.
Qed.

(** ** More on the presenter *)

(** X9. The time suffix: a Firestore timestamp is rendered as " - "
    followed by its local time; a falsy timestamp (absent, null, false, 0,
    empty string) is passed through as the child; any other truthy value
    has no [toDate] and throws. So a message with a string sender id gets
    its bubble in the first two cases and none in the third, where the whole
    render throws, whoever is signed in. *)
Theorem timestamp_must_be_a_Timestamp (env : Env) :
  (∀ msg,
     renderTime env msg =
       match msg !! "timestamp"%string with
       | Some (VTimestamp t) =>
           inr (Some (VStr (lit " - " ++ toLocaleTimeString env t)))
       | ts => if truthy ts
               then inl (TypeError "msg.timestamp.toDate is not a function")
               else inr ts
       end)
  ∧ (∀ u msg sender, msg !! "userId"%string = Some (VStr sender) →
       match msg !! "timestamp"%string with
       | Some (VTimestamp t) =>
           ∃ b, renderMessage env u msg = inr b
                ∧ time b = Some (VStr (lit " - " ++ toLocaleTimeString env t))
       | ts => if truthy ts
               then renderMessage env u msg =
                      inl (TypeError "msg.timestamp.toDate is not a function")
               else ∃ b, renderMessage env u msg = inr b ∧ time b = ts
       end)
  ∧ (∀ u msg b, renderMessage env u msg = inr b →
       match msg !! "timestamp"%string with
       | Some (VTimestamp t) =>
           time b = Some (VStr (lit " - " ++ toLocaleTimeString env t))
       | ts => truthy ts = false ∧ time b = ts
       end)
  ∧ (∀ a msg v, isAuthReady a = true → msg ∈ messages a →
       msg !! "timestamp"%string = Some v → truthy (Some v) = true →
       (∀ t, v ≠ VTimestamp t) →
       ∃ error, App env a = inl error).
Proof.
  assert (H0 : ∀ msg,
     renderTime env msg =
       match msg !! "timestamp"%string with
       | Some (VTimestamp t) =>
           inr (Some (VStr (lit " - " ++ toLocaleTimeString env t)))
       | ts => if truthy ts
               then inl (TypeError "msg.timestamp.toDate is not a function")
               else inr ts
       end).
  { intros msg. unfold renderTime.
    by destruct (msg !! "timestamp"%string) as [[]|]. }
  assert (H1 : ∀ u msg b, renderMessage env u msg = inr b →
     match msg !! "timestamp"%string with
     | Some (VTimestamp t) =>
         time b = Some (VStr (lit " - " ++ toLocaleTimeString env t))
     | ts => truthy ts = false ∧ time b = ts
     end).
  { intros u msg b Hb.
    destruct (renderMessage_inr env _ _ _ Hb) as (_ & Ht & _).
    revert Ht. unfold renderTime.
    destruct (msg !! "timestamp"%string) as [v|]; [|by intros [= <-]].
    destruct (truthy (Some v)) eqn:Htr.
    - destruct v; try done. by intros [= <-].
    - destruct v; try done; by intros [= <-]. }
  split; [done|]. split; [|split; [done|]].
  - intros u msg sender Hs. unfold renderMessage, renderLabel.
    rewrite Hs. unfold renderTime.
    destruct (msg !! "timestamp"%string) as [[|[]|n|str|t| | |]|];
      cbv beta iota zeta;
      try destruct (truthy (Some (VNum n)));
      try destruct (truthy (Some (VStr str)));
      destruct (isOwn msg u); cbn; by eauto.
  - intros a msg v Hr Hin Hts Htr Hnot.
    destruct (App env a) as [error|view] eqn:HA; [by eauto|].
    destruct (App_renders_each env a view Hr HA msg Hin) as (b & Hb & _).
    specialize (H1 _ _ _ Hb). rewrite Hts in H1.
    destruct v; try (destruct H1; congruence); by destruct (Hnot millis).
Qed.

(** X10. The list key of a bubble is the [id] of the fetched message: the
    document id, unless the document has a field named [id], which takes
    its place; two documents with different ids but the same [id] field
    get the same key. *)
Theorem document_id_field_shadows_key
    (env : Env) (u : option User) (doc : QueryDocumentSnapshot) (b : Bubble) :
  renderMessage env u (fetchedMessage doc) = inr b →
  key b = Some (default (VStr (doc_id doc)) (doc_data doc !! "id"%string))
  ∧ ∀ doc' b', renderMessage env u (fetchedMessage doc') = inr b' →
               is_Some (doc_data doc !! "id"%string) →
               doc_data doc' !! "id"%string = doc_data doc !! "id"%string →
               key b' = key b.
Proof.
  assert (H : ∀ d x, renderMessage env u (fetchedMessage d) = inr x →
              key x = Some (default (VStr (doc_id d)) (doc_data d !! "id"%string))).
  { intros d x Hx. destruct (renderMessage_inr env _ _ _ Hx) as (_ & _ & -> & _).
    rewrite fetchedMessage_lookup. by destruct (doc_data d !! "id"%string). }
  intros Hb. split; [by apply H|].
  intros doc' b' Hb' [v Hv] Heq. rewrite (H _ _ Hb), (H _ _ Hb'), Heq, Hv. done.
Qed.

(** ** Which callback writes which cell *)

Ltac frame_fin :=
  simpl;
  split; [|split; [|split]];
  first [ done | by intros [?|?] | by intros ? | by eauto 8
        | by intros; eauto 8 | by intros [?|?]; eauto 8 ].

(** X11. Each state cell is written by its own callback only: the draft by
    typing and by the acknowledgment of an append; the identity and the
    ready flag by the auth observer; the message list by a snapshot on a
    registered listener; the database and auth handles by mounting. *)
Theorem state_cells_change_only_by_their_callbacks
    (env : Env) (tr : list event) (e : event) :
  let s := run env tr initialSys in
  let s' := step env e s in
  (newMessage (st s') ≠ newMessage (st s) →
     (∃ v, e = EChange v)
     ∨ (∃ p, e = ESettled p (inr ()) ∧ awaiting (rt s) !! p = Some KAddDoc))
  ∧ (user (st s') ≠ user (st s) ∨ isAuthReady (st s') ≠ isAuthReady (st s) →
     ∃ h u, e = EAuthStateChanged h u ∧ h ∈ authObservers (world s))
  ∧ (messages (st s') ≠ messages (st s) →
     ∃ h docs, e = ESnapshot h docs
               ∧ is_Some (snapshotListeners (world s) !! h))
  ∧ (db (st s') ≠ db (st s) ∨ auth (st s') ≠ auth (st s) →
     e = EMount ∧ lifecycle (rt s) = Initial).
Proof.
  intros s s'. subst s'.
  assert (HI : Inv env s) by apply Inv_run, Inv_initial.
  pose proof (pre_initial _ _ (proj1 HI)) as Hi.
  rewrite step_st. clearbody s. clear HI.
  destruct e; destruct_sys s; munfold; cbn.
  - destruct (decide _) as [Hl|Hl]; cbn; [|simpl; split; [|split; [|split]]; try done; try (by intros [?|?]); try (by intros ?)].
    rewrite (Hi Hl). cbn.
    destruct (initializeApp env (firebaseConfig env)) as [e1|app]; cbn;
      [|destruct (getFirestore env app) as [e1|d]; cbn;
        [|destruct (getAuth env app) as [e1|au]; cbn;
          [|destruct (initialAuthToken env) as [[|c tok]|]; cbn]]]; frame_fin.
  - destruct (decide _); cbn; [destruct ac, fc|]; frame_fin.
  - destruct (decide _); cbn; repeat (case_decide; simpl); frame_fin.
  - destruct (aw !! p) as [[]|] eqn:Hp; cbn; [| |frame_fin];
      destruct outcome as [?|[]]; cbn; repeat (case_decide; simpl); frame_fin.
  - destruct (decide _); cbn; repeat (case_decide; simpl); frame_fin.
  - destruct (decide _); frame_fin.
  - destruct (formShown _); cbn; repeat (case_decide; simpl); frame_fin.
  - destruct (formShown _); cbn; [|frame_fin].
    destruct (bool_decide _), (db a) eqn:?, (user a) eqn:?; simpl;
      (split; [|split; [|split]]);
      first [ by intros ? | by intros [?|?] | intros [?|?]; congruence ].
Qed.

(** ** Snapshots that render *)

Lemma renderable_presentable (doc : QueryDocumentSnapshot) :
  renderable doc → presentable (fetchedMessage doc).
Proof.
  intros ([sender Hs] & Hts & Htext). unfold presentable.
  rewrite !fetchedMessage_lookup, Hs. split; [by eauto|]. split.
  - destruct Hts as [Hf|[t Ht]].
    + left. by destruct (doc_data doc !! "timestamp"%string).
    + right. exists t. by rewrite Ht.
  - by destruct (doc_data doc !! "text"%string).
Qed.

Lemma snapshot_callback (env : Env) (s : Sys) (h : nat)
    (docs : list QueryDocumentSnapshot) :
  lifecycle (rt s) = Mounted → is_Some (snapshotListeners (world s) !! h) →
  dispatch env (ESnapshot h docs) s =
    (inr (), {| st := {| messages := fetchedMessage <$> docs;
                         newMessage := newMessage (st s); user := user (st s);
                         db := db (st s); auth := auth (st s);
                         isAuthReady := isAuthReady (st s) |};
                rt := rt s; world := world s |}).
Proof.
  intros Hm Hlive. destruct_sys s. subst lc. munfold.
  rewrite decide_True by done. by simpl.
Qed.

(** X12. A snapshot all of whose documents have a string [userId], a
    timestamp that is a Firestore timestamp or falsy, and a [text] that
    React accepts as a child never makes the render throw: delivered on the
    registered listener it replaces the message list and changes nothing
    else; the listener stays. A document whose [text] is a map or a
    timestamp makes the render throw, and the component is unmounted. *)
Theorem renderable_snapshot_is_accepted
    (env : Env) (tr : list event) (h : nat) (docs : list QueryDocumentSnapshot) :
  let s := run env tr initialSys in
  is_Some (snapshotListeners (world s) !! h) →
  (Forall renderable docs →
   step env (ESnapshot h docs) s =
     {| st := {| messages := fetchedMessage <$> docs;
                 newMessage := newMessage (st s); user := user (st s);
                 db := db (st s); auth := auth (st s);
                 isAuthReady := isAuthReady (st s) |};
        rt := rt s; world := world s |})
  ∧ (∀ doc, doc ∈ docs →
       from_option validChild true (doc_data doc !! "text"%string) = false →
       ∃ error, crashed (rt (step env (ESnapshot h docs) s)) = Some error
                ∧ lifecycle (rt (step env (ESnapshot h docs) s)) = Unmounted).
Proof.
  intros s Hlive.
  assert (HI : Inv env s) by apply Inv_run, Inv_initial.
  destruct (live_listener env s h HI Hlive) as (_ & Hm & _ & _ & Hr).
  destruct (proj2 HI Hm) as [Hdeps _].
  pose proof (snapshot_callback env s h docs Hm Hlive) as Hd.
  split.
  - intros Hdocs. apply step_rerender; [done| |done].
    cbn. unfold App. cbn. rewrite Hr. cbn.
    destruct (presentable_all env (user (st s)) (fetchedMessage <$> docs))
      as (bs & Hbs & Hvalid).
    { apply Forall_fmap. eapply Forall_impl; [done|]. apply renderable_presentable. }
    destruct (fetchedMessage <$> docs) eqn:Heq; [by eauto|].
    rewrite Hbs, (proj2 (checkChildren_inr bs bs) (conj eq_refl Hvalid)). eauto.
  - intros doc Hin Hbad.
    assert (Hall : dispatchAll env [ESnapshot h docs] s =
              {| st := {| messages := fetchedMessage <$> docs;
                          newMessage := newMessage (st s); user := user (st s);
                          db := db (st s); auth := auth (st s);
                          isAuthReady := isAuthReady (st s) |};
                 rt := rt s; world := world s |}) by (cbn; by rewrite Hd).
    destruct (App_invalid_text env (st (dispatchAll env [ESnapshot h docs] s))
                (fetchedMessage doc)) as [error Herr].
    + by rewrite Hall.
    + rewrite Hall. cbn. by apply list_elem_of_fmap_2.
    + rewrite fetchedMessage_lookup.
      by destruct (doc_data doc !! "text"%string).
    + exists error. rewrite <- (tick_single env _ s HI).
      rewrite (tick_crashes env _ s error HI); [apply crash_crashed| |done].
      by rewrite Hall.
Qed.

(** X13. Mounting with a bootstrap that succeeds stores both handles,
    registers the auth observer, suspends on the sign-in, and leaves the
    session not ready: the loading screen without any feed listener. *)
Theorem mount_bootstraps_the_session (env : Env) (d : Firestore) (a : Auth) :
  bootstrap env = inr (d, a) →
  let s := step env EMount initialSys in
  st s = {| messages := []; newMessage := []; user := None; db := Some d;
            auth := Some a; isAuthReady := false |}
  ∧ lifecycle (rt s) = Mounted
  ∧ authObservers (world s) = {[ 0%nat ]}
  ∧ authCleanup (rt s) = Some 0%nat
  ∧ awaiting (rt s) = {[ 1%nat := KSignIn ]}
  ∧ snapshotListeners (world s) = ∅
  ∧ console (world s) = []
  ∧ App env (st s) = inr (LoadingView (lit "Loading chat...")).
Proof.
  intros Hb s.
  assert (Hd : ∃ s1, dispatch env EMount initialSys = (inr (), s1)
     ∧ st s1 = {| messages := []; newMessage := []; user := None; db := Some d;
                  auth := Some a; isAuthReady := false |}
     ∧ rt s1 = {| lifecycle := Mounted; crashed := None; uncaught := [];
                  authCleanup := Some 0%nat;
                  feedDeps := Some (feedDepsOf initialState); feedCleanup := None;
                  awaiting := {[ 1%nat := KSignIn ]} |}
     ∧ authObservers (world s1) = {[ 0%nat ]}
     ∧ snapshotListeners (world s1) = ∅
     ∧ console (world s1) = []).
  { unfold bootstrap in Hb. munfold. cbn.
    destruct (initializeApp env (firebaseConfig env)) as [|app]; [done|]. cbn.
    destruct (getFirestore env app) as [|d']; [done|]. cbn.
    destruct (getAuth env app) as [|a']; [done|]. cbn.
    injection Hb as -> ->.
    destruct (initialAuthToken env) as [[|c tok]|]; cbn;
      (eexists; split; [done|]; cbn; split_and!; try done;
       by rewrite ?union_empty_r_L). }
  destruct Hd as (s1 & Hd & Hst & Hrt & Hao & Hsl & Hco).
  assert (Hs : s = (commit env s1).2).
  { apply (step_commits env _ _ s1 (LoadingView (lit "Loading chat...")));
      [done|by rewrite Hrt|by rewrite Hst|by rewrite Hst]. }
  assert (Hc : (commit env s1).2 =
    {| st := st s1;
       rt := set_feed (feedDepsOf (st s1)) None (rt s1); world := world s1 |}).
  { destruct s1 as [a1 r1 w1]. cbn in Hst, Hrt. subst a1 r1.
    munfold. cbn. rewrite decide_False by done. reflexivity. }
  rewrite Hs, Hc. cbn. rewrite Hrt, Hst. cbn. done.
Qed.

(** ** Batched ticks *)

(** X14. What holds between the events of a session holds between its
    ticks too, however the library callbacks are batched: a mounted
    component has a feed listener exactly when the database handle, the
    identity and auth readiness are all present, there is never more than
    one listener, what is on screen was rendered without throwing, and a
    component that has been mounted and is no longer so keeps no listener.
    A session of [run] is the session of [runTicks] with one event per
    tick. *)
Theorem batched_ticks_keep_the_feed_in_step (env : Env) (ticks : list (list event)) :
  let s := runTicks env ticks initialSys in
  (lifecycle (rt s) = Mounted →
     (snapshotListeners (world s) ≠ ∅
      ↔ is_Some (db (st s)) ∧ is_Some (user (st s)) ∧ isAuthReady (st s) = true))
  ∧ (snapshotListeners (world s) ≠ ∅ →
     lifecycle (rt s) = Mounted
     ∧ is_Some (db (st s)) ∧ is_Some (user (st s)) ∧ isAuthReady (st s) = true)
  ∧ (size (snapshotListeners (world s)) ≤ 1)%nat
  ∧ (lifecycle (rt s) = Mounted → ∃ v, App env (st s) = inr v)
  ∧ (lifecycle (rt s) = Unmounted →
     snapshotListeners (world s) = ∅ ∧ authObservers (world s) = ∅)
  ∧ (∀ tr, run env tr initialSys = runTicks env ((λ e, [e]) <$> tr) initialSys).
Proof.
  intros s.
  assert (HI : Inv env s) by apply Inv_runTicks, Inv_initial.
  assert (Hopen : snapshotListeners (world s) ≠ ∅ →
     lifecycle (rt s) = Mounted
     ∧ is_Some (db (st s)) ∧ is_Some (user (st s)) ∧ isAuthReady (st s) = true).
  { intros Hne. apply map_choose in Hne as (h & q & Hq).
    destruct (live_listener env s h HI) as (_ & ? & ? & ? & ?); eauto. }
  split; [|split; [exact Hopen|split; [|split; [|split]]]].
  - intros Hm. split; [by intros ?%Hopen; naive_solver|].
    intros Hw. rewrite (listeners_empty_iff env s HI).
    destruct HI as [Hpre Hsync].
    destruct (pre_deps _ _ Hpre Hm) as (d & Hd & Hiff).
    destruct (Hsync Hm) as [Hd' _]. rewrite Hd' in Hd. injection Hd as <-.
    apply wantedDeps_of, Hiff in Hw as [h Hh]. congruence.
  - rewrite <- size_dom, (pre_feed _ _ (proj1 HI)).
    destruct (feedCleanup (rt s)); [rewrite size_singleton | rewrite size_empty]; lia.
  - intros Hm. by destruct (proj2 HI Hm).
  - intros Hu. split.
    + destruct (decide (snapshotListeners (world s) = ∅)) as [|Hne]; [done|].
      destruct (Hopen Hne) as [Hm _]. congruence.
    + destruct (decide (authObservers (world s) = ∅)) as [|Hne]; [done|].
      apply set_choose_L in Hne as [h Hh].
      pose proof (live_observer env s h HI Hh). congruence.
  - intros tr. apply run_runTicks, Inv_initial.
Qed.

(** The tick of [Example.batchedSignOut]: the message without [userId] is
    on screen, labelled "You", and the component is still mounted. *)
Lemma batched_sign_out_view :
  messages (st (tick Example.env Example.batchedSignOut
                  (runTicks Example.env Example.signIn initialSys)))
    = [fetchedMessage Example.anonymous]
  ∧ lifecycle (rt (tick Example.env Example.batchedSignOut
                     (runTicks Example.env Example.signIn initialSys))) = Mounted
  ∧ crashed (rt (tick Example.env Example.batchedSignOut
                   (runTicks Example.env Example.signIn initialSys))) = None
  ∧ ∃ b, App Example.env
           (st (tick Example.env Example.batchedSignOut
                  (runTicks Example.env Example.signIn initialSys)))
           = inr (ChatView (lit "N/A") (inr [b]) [])
         ∧ label b = lit "You" ∧ rowClass b = lit "flex justify-end".
Proof.
  split; [by vm_compute|]. split; [by vm_compute|]. split; [by vm_compute|].
  eexists. split; [by vm_compute|]. split; by vm_compute.
Qed.

(** ** The further properties on the concrete session *)

Lemma typing_witness :
  formShown Example.signedIn = true
  ∧ newMessage (st (step Example.env (EChange (lit "hi")) Example.signedIn))
    = lit "hi".
Proof.
  assert (H : formShown Example.signedIn = true) by (vm_compute; reflexivity).
  destruct (typing_only_changes_draft Example.env
              [EMount; EAuthStateChanged 0%nat (Some Example.u1)] (lit "hi") H)
    as [Hs _].
  split; [exact H|]. exact (f_equal (λ x, newMessage (st x)) Hs).
Defined.

Lemma double_submit_witness :
  formShown Example.drafted = true
  ∧ trim (newMessage (st Example.drafted)) ≠ []
  ∧ length (addDocs (world (run Example.env [ESubmit; ESubmit] Example.drafted)))
    = 2%nat.
Proof.
  assert (H1 : formShown Example.drafted = true) by (vm_compute; reflexivity).
  assert (H2 : db (st Example.drafted) = Some {| firestore_ref := 1 |})
    by (vm_compute; reflexivity).
  assert (H3 : user (st Example.drafted) = Some Example.u1)
    by (vm_compute; reflexivity).
  assert (H4 : trim (newMessage (st Example.drafted)) ≠ [])
    by (vm_compute; discriminate).
  destruct (double_submit_appends_twice Example.env Example.drafted _ _
              H1 H2 H3 H4) as (Hadd & _).
  split; [exact H1|]. split; [exact H4|]. rewrite Hadd. vm_compute. reflexivity.
Defined.

Lemma send_witness :
  snapshotListeners (world Example.drafted) !! 2%nat
    = Some (query_orderBy
              (collection {| firestore_ref := 1 |} (messagesPath Example.env))
              "timestamp" asc)
  ∧ ∃ c, addDocs (world (step Example.env ESubmit Example.drafted)) = [c]
         ∧ coll_db (add_ref c) = {| firestore_ref := 1 |}.
Proof.
  assert (H1 : snapshotListeners (world Example.drafted) !! 2%nat
    = Some (query_orderBy
              (collection {| firestore_ref := 1 |} (messagesPath Example.env))
              "timestamp" asc)) by (vm_compute; reflexivity).
  assert (H2 : trim (newMessage (st Example.drafted)) ≠ [])
    by (vm_compute; discriminate).
  destruct (send_goes_to_the_subscribed_collection Example.env
              [EMount; EAuthStateChanged 0%nat (Some Example.u1);
               EChange (lit " hello ")] 2%nat _ H1 H2) as (c & Hadd & Href & _).
  split; [exact H1|]. exists c. split; [exact Hadd|].
  rewrite Href. reflexivity.
Defined.

Lemma unmount_witness :
  lifecycle (rt Example.signedIn) = Mounted
  ∧ authObservers
      (world (run Example.env [ESnapshot 2%nat [Example.m1]]
                (step Example.env EUnmount Example.signedIn))) = ∅
  ∧ messages
      (st (run Example.env [ESnapshot 2%nat [Example.m1]]
             (step Example.env EUnmount Example.signedIn))) = [].
Proof.
  assert (H : lifecycle (rt Example.signedIn) = Mounted) by (vm_compute; reflexivity).
  destruct (unmount_releases_everything Example.env
              [EMount; EAuthStateChanged 0%nat (Some Example.u1)]
              [ESnapshot 2%nat [Example.m1]] H) as (_ & Ha & _ & Hst & _).
  split; [exact H|]. split; [exact Ha|].
  refine (eq_trans (f_equal messages Hst) _). vm_compute. reflexivity.
Defined.

Lemma identity_switch_witness :
  is_Some (snapshotListeners (world Example.signedIn) !! 2%nat)
  ∧ feedCleanup
      (rt (step Example.env (EAuthStateChanged 0%nat (Some Example.u2))
             Example.signedIn)) = Some 3%nat.
Proof.
  assert (H1 : is_Some (snapshotListeners (world Example.signedIn) !! 2%nat)).
  { vm_compute. eexists. reflexivity. }
  assert (H2 : 0%nat ∈ authObservers (world Example.signedIn)).
  { vm_compute. reflexivity. }
  assert (H3 : user (st Example.signedIn) = Some Example.u1)
    by (vm_compute; reflexivity).
  assert (H4 : user_ref Example.u2 ≠ user_ref Example.u1)
    by (vm_compute; discriminate).
  destruct (identity_switch_resubscribes Example.env
              [EMount; EAuthStateChanged 0%nat (Some Example.u1)]
              2%nat 0%nat Example.u1 Example.u2 H1 H2 H3 H4)
    as (d & _ & _ & _ & Hfc & _).
  split; [exact H1|]. refine (eq_trans Hfc _). vm_compute. reflexivity.
Defined.

Lemma sign_out_witness :
  user (st (run Example.env [ESnapshot 2%nat [Example.m1]] Example.signedIn))
    = Some Example.u1
  ∧ messages
      (st (step Example.env (EAuthStateChanged 0%nat None)
             (run Example.env [ESnapshot 2%nat [Example.m1]] Example.signedIn)))
    = [fetchedMessage Example.m1].
Proof.
  assert (H1 : 0%nat ∈ authObservers
                 (world (run Example.env [ESnapshot 2%nat [Example.m1]]
                           Example.signedIn))) by (vm_compute; reflexivity).
  assert (H2 : user (st (run Example.env [ESnapshot 2%nat [Example.m1]]
                           Example.signedIn)) = Some Example.u1)
    by (vm_compute; reflexivity).
  assert (H3 : isAuthReady (st (run Example.env [ESnapshot 2%nat [Example.m1]]
                                  Example.signedIn)) = true)
    by (vm_compute; reflexivity).
  destruct (sign_out_keeps_stale_list Example.env
              [EMount; EAuthStateChanged 0%nat (Some Example.u1);
               ESnapshot 2%nat [Example.m1]] 0%nat Example.u1 H1 H2 H3)
    as (_ & _ & _ & _ & _ & Hm & _).
  split; [exact H2|]. refine (eq_trans Hm _). vm_compute. reflexivity.
Defined.

Lemma timestamp_witness :
  (∃ b, renderMessage Example.env (Some Example.u1) (fetchedMessage Example.m1)
          = inr b
        ∧ time b = Some (VStr (lit " - " ++ toLocaleTimeString Example.env 1000)))
  ∧ (∃ b, renderMessage Example.env (Some Example.u1)
            (fetchedMessage Example.foreign) = inr b
          ∧ time b = Some VNull)
  ∧ ∃ error,
      App Example.env
        {| messages := [<[ "timestamp"%string := VNum 5 ]> (fetchedMessage Example.m1)];
           newMessage := []; user := Some Example.u1; db := None; auth := None;
           isAuthReady := true |} = inl error.
Proof.
  destruct (timestamp_must_be_a_Timestamp Example.env) as (_ & Hshow & _ & Hthrow).
  split; [|split].
  - assert (Hs : fetchedMessage Example.m1 !! "userId"%string = Some (VStr (lit "u1")))
      by (vm_compute; reflexivity).
    exact (Hshow (Some Example.u1) (fetchedMessage Example.m1) (lit "u1") Hs).
  - assert (Hs : fetchedMessage Example.foreign !! "userId"%string
                 = Some (VStr (lit "abcdefghijkl"))) by (vm_compute; reflexivity).
    exact (Hshow (Some Example.u1) (fetchedMessage Example.foreign)
             (lit "abcdefghijkl") Hs).
  - apply (Hthrow _ (<[ "timestamp"%string := VNum 5 ]> (fetchedMessage Example.m1))
             (VNum 5)).
    + reflexivity.
    + apply list_elem_of_singleton. reflexivity.
    + vm_compute. reflexivity.
    + reflexivity.
    + intros t. discriminate.
Defined.

Lemma key_witness :
  ∃ b, renderMessage Example.env (Some Example.u1) (fetchedMessage Example.m1)
       = inr b
       ∧ key b = Some (VStr (lit "m1")).
Proof.
  destruct (renderMessage Example.env (Some Example.u1) (fetchedMessage Example.m1))
    as [e|b] eqn:Hb; [vm_compute in Hb; discriminate Hb|].
  exists b. split; [reflexivity|].
  rewrite (proj1 (document_id_field_shadows_key Example.env _ _ _ Hb)).
  vm_compute. reflexivity.
Defined.

Lemma frame_witness :
  newMessage (st (step Example.env (EChange (lit "x")) Example.signedIn))
    ≠ newMessage (st Example.signedIn)
  ∧ ((∃ v, EChange (lit "x") = EChange v)
     ∨ (∃ p, EChange (lit "x") = ESettled p (inr ())
             ∧ awaiting (rt Example.signedIn) !! p = Some KAddDoc)).
Proof.
  assert (H : newMessage (st (step Example.env (EChange (lit "x")) Example.signedIn))
              ≠ newMessage (st Example.signedIn)) by (vm_compute; discriminate).
  destruct (state_cells_change_only_by_their_callbacks Example.env
              [EMount; EAuthStateChanged 0%nat (Some Example.u1)]
              (EChange (lit "x"))) as (Hd & _).
  split; [exact H|]. exact (Hd H).
Defined.

Lemma renderable_witness :
  is_Some (snapshotListeners (world Example.signedIn) !! 2%nat)
  ∧ Forall renderable [Example.m1]
  ∧ messages (st (step Example.env (ESnapshot 2%nat [Example.m1]) Example.signedIn))
    = [fetchedMessage Example.m1]
  ∧ lifecycle (rt (step Example.env (ESnapshot 2%nat [Example.m1]) Example.signedIn))
    = Mounted
  ∧ ∃ error,
      crashed (rt (step Example.env (ESnapshot 2%nat [Example.textObject])
                     Example.signedIn)) = Some error
      ∧ lifecycle (rt (step Example.env (ESnapshot 2%nat [Example.textObject])
                         Example.signedIn)) = Unmounted.
Proof.
  assert (H1 : is_Some (snapshotListeners (world Example.signedIn) !! 2%nat)).
  { vm_compute. eexists. reflexivity. }
  assert (H2 : Forall renderable [Example.m1]).
  { constructor; [|constructor].
    split; [exists (lit "u1"); vm_compute; reflexivity|].
    split; [right; exists 1000%Z; vm_compute; reflexivity|].
    vm_compute. reflexivity. }
  destruct (renderable_snapshot_is_accepted Example.env
              [EMount; EAuthStateChanged 0%nat (Some Example.u1)]
              2%nat [Example.m1] H1) as [Hok _].
  destruct (renderable_snapshot_is_accepted Example.env
              [EMount; EAuthStateChanged 0%nat (Some Example.u1)]
              2%nat [Example.textObject] H1) as [_ Hbad].
  split; [exact H1|]. split; [exact H2|].
  split; [exact (f_equal (λ x, messages (st x)) (Hok H2))|].
  split; [exact (f_equal (λ x, lifecycle (rt x)) (Hok H2))|].
  apply (Hbad Example.textObject).
  - apply list_elem_of_singleton. reflexivity.
  - vm_compute. reflexivity.
Defined.

Lemma mount_witness :
  bootstrap Example.env = inr ({| firestore_ref := 1 |}, {| auth_ref := 2 |})
  ∧ db (st (step Example.env EMount initialSys)) = Some {| firestore_ref := 1 |}.
Proof.
  assert (H : bootstrap Example.env
              = inr ({| firestore_ref := 1 |}, {| auth_ref := 2 |})) by reflexivity.
  destruct (mount_bootstraps_the_session Example.env _ _ H) as (Hst & _).
  split; [exact H|]. exact (f_equal db Hst).
Defined.
